(** * SightShare server: a shallow embedding of [server.js]

    The server is an Express application over one SQLite database with
    two tables, [guests] and [orders].  Every route handler is embedded
    as a function from an environment (clock readings and storage
    faults), the store and the request to a response and a new store.

    - [Chars], [JSON] : JavaScript values as they arrive in a JSON body,
      truthiness, property access, [JSON.stringify] and [JSON.parse];
    - [Sql] : the two tables, AUTOINCREMENT keys, parameter binding,
      column affinity, NOT NULL constraints, WHERE and ORDER BY;
    - [Server] : the route handlers of [server.js], the stores they
      reach and the runs of the server;
    - [Props], [Samples] : the notions the properties are stated with
      and sample requests;
    - [JSONFacts], [SqlFacts], [ServerFacts] : the lemmas;
    - the properties of the specification, one theorem each.

    Conventions of the model.  The numbers are the integers, printed in
    decimal, negative zero and the two infinities; a finite number
    that is no integer is outside the model, and an integer stands for
    the double that holds it, which is exact up to [2 ^ 53].  A string
    is a sequence of characters with codes below 256; an object is the
    list of its properties.  A statement fails either because a
    NOT NULL constraint is violated, which the model computes, or for a
    reason of the storage engine, which the environment decides: an
    I/O error, or the overflow of a 64-bit sum. *)

From Stdlib Require Import List ZArith Lia Bool Ascii String.
From Stdlib Require Import DecimalString DecimalPos DecimalZ.
From Stdlib Require Import Sorted Permutation.
Import ListNotations.

Local Open Scope Z_scope.
Local Set Warnings "-register-all".

(* ================================================================= *)
(** ** Characters used by the serialisers *)

Module Chars.

Definition dquote : ascii := ascii_of_nat 34.
Definition bslash : ascii := ascii_of_nat 92.

(** Characters of a string literal, as a list. *)
Definition chars (s : string) : list ascii := list_ascii_of_string s.

Definition code (c : ascii) : N := N_of_ascii c.

Definition is_ws (c : ascii) : bool :=
  (c =? " ")%char || (c =? "009")%char || (c =? "010")%char || (c =? "013")%char.

Definition is_digit (c : ascii) : bool :=
  ((48 <=? code c) && (code c <=? 57))%N.

Definition is_control (c : ascii) : bool := (code c <? 32)%N.

Definition hex_digit (n : N) : ascii :=
  if (n <? 10)%N then ascii_of_N (48 + n) else ascii_of_N (87 + n).

Definition hex_value (c : ascii) : option N :=
  let n := code c in
  if ((48 <=? n) && (n <=? 57))%N then Some (n - 48)%N
  else if ((97 <=? n) && (n <=? 102))%N then Some (n - 87)%N
  else if ((65 <=? n) && (n <=? 70))%N then Some (n - 55)%N
  else None.

Fixpoint skip_ws (s : list ascii) : list ascii :=
  match s with
  | c :: r => if is_ws c then skip_ws r else s
  | [] => []
  end.

Fixpoint span_digits (s : list ascii) : list ascii * list ascii :=
  match s with
  | c :: r =>
      if is_digit c then let (ds, rest) := span_digits r in (c :: ds, rest)
      else ([], s)
  | [] => ([], [])
  end.

End Chars.
Import Chars.

(* ================================================================= *)
(** ** JavaScript values of a JSON body *)

Module JSON.

(** The numbers of the model: the integers, negative zero, which a
    body writes [-0], and the two infinities, which a body reaches with
    a literal beyond the range of a double such as [1e999].  A finite
    number that is no integer is outside the model, and so is the
    rounding of an integer that no double holds. *)
Inductive number : Type :=
| Int (n : Z)
| NegZero
| Infinity (negative : bool).

Coercion Int : Z >-> number.

(** A value produced by [JSON.parse] (the body parser of Express): a
    string is a sequence of characters with codes below 256, an object
    is the sequence of its own enumerable properties in enumeration
    order. *)
Inductive json : Type :=
| JNull
| JBool (b : bool)
| JNum (x : number)
| JStr (s : string)
| JArr (l : list json)
| JObj (m : list (string * json)).

(** A destructured property: [None] is [undefined]. *)
Definition jsval := option json.

(** ToBoolean.  [undefined], [null], [false], [0], [-0] and the empty
    string are falsy; every array and every object is truthy, also the
    empty ones. *)
Definition truthy (v : jsval) : bool :=
  match v with
  | None => false
  | Some JNull => false
  | Some (JBool b) => b
  | Some (JNum (Int n)) => negb (n =? 0)
  | Some (JNum NegZero) => false
  | Some (JNum (Infinity _)) => true
  | Some (JStr s) => negb (s =? "")%string
  | Some (JArr _) => true
  | Some (JObj _) => true
  end.

(** [!v] *)
Definition js_not (v : jsval) : bool := negb (truthy v).

(** [a || b] with [b] defined. *)
Definition js_or (a : jsval) (b : json) : json :=
  match a with
  | Some v => if truthy a then v else b
  | None => b
  end.

(** Property lookup on an object: the first binding of the key. *)
Fixpoint get_prop (k : string) (m : list (string * json)) : jsval :=
  match m with
  | [] => None
  | (k', v) :: m' => if (k =? k')%string then Some v else get_prop k m'
  end.

(** [v.k] for the property names the server asks for: an own property
    of an object, the [length] of an array or of a string, [undefined]
    otherwise. *)
Definition prop (v : json) (k : string) : jsval :=
  match v with
  | JObj m => get_prop k m
  | JArr l => if (k =? "length")%string then Some (JNum (Z.of_nat (List.length l))) else None
  | JStr s => if (k =? "length")%string then Some (JNum (Z.of_nat (String.length s))) else None
  | _ => None
  end.

(** [v.length] *)
Definition js_length (v : json) : jsval := prop v "length".

(** [{...o, k: v}]: an existing property keeps its place. *)
Fixpoint set_prop (k : string) (v : json) (m : list (string * json))
  : list (string * json) :=
  match m with
  | [] => [(k, v)]
  | (k', v') :: m' =>
      if (k =? k')%string then (k', v) :: m' else (k', v') :: set_prop k v m'
  end.

(** *** JSON.stringify *)

Definition string_of_Z (n : Z) : string := NilZero.string_of_int (Z.to_int n).

(** SerializeJSONProperty on a number: a finite number is written as
    [String(x)], which is the decimal text of an integer below
    [10 ^ 21] and [0] for negative zero; a number that is not finite is
    written as [null]. *)
Definition print_number (x : number) : list ascii :=
  match x with
  | Int n => chars (string_of_Z n)
  | NegZero => chars "0"
  | Infinity _ => chars "null"
  end.

(** QuoteJSONString, one character. *)
Definition escape_char (c : ascii) : list ascii :=
  if (c =? dquote)%char then [bslash; dquote]
  else if (c =? bslash)%char then [bslash; bslash]
  else if (c =? "008")%char then [bslash; "b"%char]
  else if (c =? "012")%char then [bslash; "f"%char]
  else if (c =? "010")%char then [bslash; "n"%char]
  else if (c =? "013")%char then [bslash; "r"%char]
  else if (c =? "009")%char then [bslash; "t"%char]
  else if is_control c then
    [bslash; "u"%char; "0"%char; "0"%char;
     hex_digit (code c / 16)%N; hex_digit (code c mod 16)%N]
  else [c].

Definition quote (s : string) : list ascii :=
  dquote :: flat_map escape_char (chars s) ++ [dquote].

(** [parts.join(",")] on already serialised parts. *)
Fixpoint join_commas (parts : list (list ascii)) : list ascii :=
  match parts with
  | [] => []
  | [p] => p
  | p :: ps => p ++ ","%char :: join_commas ps
  end.

Fixpoint print (v : json) : list ascii :=
  match v with
  | JNull => chars "null"
  | JBool true => chars "true"
  | JBool false => chars "false"
  | JNum x => print_number x
  | JStr s => quote s
  | JArr l => "["%char :: join_commas (map print l) ++ ["]"%char]
  | JObj m =>
      "{"%char ::
      join_commas (map (fun kv => quote (fst kv) ++ ":"%char :: print (snd kv)) m)
      ++ ["}"%char]
  end.

Definition stringify (v : json) : string := string_of_list_ascii (print v).

(** *** JSON.parse *)

(** The body of a string literal, after its opening quote. *)
Fixpoint parse_chars (s : list ascii) : option (list ascii * list ascii) :=
  match s with
  | [] => None
  | c :: r =>
      if (c =? dquote)%char then Some ([], r)
      else if (c =? bslash)%char then
        match r with
        | [] => None
        | e :: r1 =>
            if (e =? "u"%char)%char then
              match r1 with
              | h1 :: h2 :: h3 :: h4 :: r2 =>
                  match hex_value h1, hex_value h2, hex_value h3, hex_value h4 with
                  | Some 0%N, Some 0%N, Some a, Some b =>
                      match parse_chars r2 with
                      | Some (cs, rest) => Some (ascii_of_N (16 * a + b) :: cs, rest)
                      | None => None
                      end
                  | _, _, _, _ => None
                  end
              | _ => None
              end
            else
              let decoded :=
                if (e =? dquote)%char then Some dquote
                else if (e =? bslash)%char then Some bslash
                else if (e =? "/")%char then Some "/"%char
                else if (e =? "b")%char then Some "008"%char
                else if (e =? "f")%char then Some "012"%char
                else if (e =? "n")%char then Some "010"%char
                else if (e =? "r")%char then Some "013"%char
                else if (e =? "t")%char then Some "009"%char
                else None in
              match decoded with
              | Some d =>
                  match parse_chars r1 with
                  | Some (cs, rest) => Some (d :: cs, rest)
                  | None => None
                  end
              | None => None
              end
        end
      else if is_control c then None
      else
        match parse_chars r with
        | Some (cs, rest) => Some (c :: cs, rest)
        | None => None
        end
  end.

(** An integer literal: an optional minus sign, then digits without a
    superfluous leading zero; [-0] is negative zero.  A literal with a
    fraction or an exponent is refused: [JSON.stringify] writes none
    for the numbers of the model, so that no text the server stores
    holds one. *)
Definition parse_number (s : list ascii) : option (number * list ascii) :=
  let '(sign, s1) :=
    match s with
    | c :: r => if (c =? "-")%char then (["-"%char], r) else ([], s)
    | [] => ([], s)
    end in
  let '(ds, rest) := span_digits s1 in
  let more :=
    match rest with
    | c :: _ => (c =? ".")%char || (c =? "e")%char || (c =? "E")%char
    | [] => false
    end in
  if more then None
  else
    let tok := string_of_list_ascii (sign ++ ds) in
    if (tok =? "-0")%string then Some (NegZero, rest)
    else
      match NilZero.int_of_string tok with
      | Some i =>
          let n := Z.of_int i in
          if (string_of_Z n =? tok)%string then Some (Int n, rest) else None
      | None => None
      end.

Fixpoint starts_with (p s : list ascii) : option (list ascii) :=
  match p, s with
  | [], _ => Some s
  | a :: p', b :: s' => if (a =? b)%char then starts_with p' s' else None
  | _ :: _, [] => None
  end.

(** The recursive-descent parser; [fuel] bounds the nesting and the
    number of members, [parse] below supplies enough of it. *)
Fixpoint parse_value (fuel : nat) (s : list ascii) {struct fuel}
  : option (json * list ascii) :=
  match fuel with
  | O => None
  | S f =>
      match skip_ws s with
      | [] => None
      | c :: r =>
          if (c =? "n")%char then
            option_map (fun rest => (JNull, rest)) (starts_with (chars "ull") r)
          else if (c =? "t")%char then
            option_map (fun rest => (JBool true, rest)) (starts_with (chars "rue") r)
          else if (c =? "f")%char then
            option_map (fun rest => (JBool false, rest)) (starts_with (chars "alse") r)
          else if (c =? dquote)%char then
            match parse_chars r with
            | Some (cs, rest) => Some (JStr (string_of_list_ascii cs), rest)
            | None => None
            end
          else if (c =? "[")%char then
            match skip_ws r with
            | c1 :: r1 =>
                if (c1 =? "]")%char then Some (JArr [], r1)
                else
                  match parse_elements f (c1 :: r1) with
                  | Some (l, rest) => Some (JArr l, rest)
                  | None => None
                  end
            | [] => None
            end
          else if (c =? "{")%char then
            match skip_ws r with
            | c1 :: r1 =>
                if (c1 =? "}")%char then Some (JObj [], r1)
                else
                  match parse_members f (c1 :: r1) with
                  | Some (m, rest) => Some (JObj m, rest)
                  | None => None
                  end
            | [] => None
            end
          else
            match parse_number (c :: r) with
            | Some (x, rest) => Some (JNum x, rest)
            | None => None
            end
      end
  end

with parse_elements (fuel : nat) (s : list ascii) {struct fuel}
  : option (list json * list ascii) :=
  match fuel with
  | O => None
  | S f =>
      match parse_value f s with
      | Some (v, r) =>
          match skip_ws r with
          | c :: r1 =>
              if (c =? ",")%char then
                match parse_elements f r1 with
                | Some (vs, rest) => Some (v :: vs, rest)
                | None => None
                end
              else if (c =? "]")%char then Some ([v], r1)
              else None
          | [] => None
          end
      | None => None
      end
  end

with parse_members (fuel : nat) (s : list ascii) {struct fuel}
  : option (list (string * json) * list ascii) :=
  match fuel with
  | O => None
  | S f =>
      match skip_ws s with
      | q :: r0 =>
          if (q =? dquote)%char then
            match parse_chars r0 with
            | Some (ks, r1) =>
                match skip_ws r1 with
                | colon :: r2 =>
                    if (colon =? ":")%char then
                      match parse_value f r2 with
                      | Some (v, r3) =>
                          let kv := (string_of_list_ascii ks, v) in
                          match skip_ws r3 with
                          | c :: r4 =>
                              if (c =? ",")%char then
                                match parse_members f r4 with
                                | Some (m, rest) => Some (kv :: m, rest)
                                | None => None
                                end
                              else if (c =? "}")%char then Some ([kv], r4)
                              else None
                          | [] => None
                          end
                      | None => None
                      end
                    else None
                | [] => None
                end
            | None => None
            end
          else None
      | [] => None
      end
  end.

(** [JSON.parse(text)]: one value, surrounded by optional white space;
    [None] stands for the SyntaxError it throws. *)
Definition parse (text : string) : option json :=
  let s := chars text in
  match parse_value (S (List.length s)) s with
  | Some (v, rest) =>
      match skip_ws rest with
      | [] => Some v
      | _ :: _ => None
      end
  | None => None
  end.

End JSON.
Import JSON.

(* ================================================================= *)
(** ** The SQLite store *)

Module Sql.

(** A value bound to a statement or held in a column.  Of the REAL
    values the model has the two infinities. *)
Inductive sqlval : Type :=
| SqlNull
| SqlInt (n : Z)
| SqlInf (negative : bool)
| SqlText (s : string).

(** How the driver binds one element of the parameter array: strings
    as TEXT, booleans as INTEGER, [null] as NULL; a number as INTEGER
    when it equals its conversion to 32 bits, which negative zero does,
    and as REAL otherwise, which the infinities are; an [undefined]
    element is left unbound, which SQLite reads as NULL; any other
    object is bound as the text [[object Object]].  An integer beyond
    32 bits is bound as a REAL too: the model keeps it an integer, so
    that the text it gives in a TEXT column lacks the fraction part
    that SQLite writes ([3000000000.0]). *)
Definition bind_param (v : jsval) : sqlval :=
  match v with
  | None => SqlNull
  | Some JNull => SqlNull
  | Some (JBool b) => SqlInt (if b then 1 else 0)
  | Some (JNum (Int n)) => SqlInt n
  | Some (JNum NegZero) => SqlInt 0
  | Some (JNum (Infinity negative)) => SqlInf negative
  | Some (JStr s) => SqlText s
  | Some (JArr _) => SqlText "[object Object]"
  | Some (JObj _) => SqlText "[object Object]"
  end.

(** TEXT affinity: an integer is stored as its decimal text, an
    infinite REAL as [Inf] or [-Inf]. *)
Definition text_affinity (v : sqlval) : sqlval :=
  match v with
  | SqlInt n => SqlText (string_of_Z n)
  | SqlInf negative => SqlText (if negative then "-Inf" else "Inf")
  | _ => v
  end.

(** The white space SQLite skips around a number. *)
Definition is_sql_space (c : ascii) : bool :=
  (c =? " ")%char || ((9 <=? code c) && (code c <=? 13))%N.

Fixpoint skip_spaces (s : list ascii) : list ascii :=
  match s with
  | c :: r => if is_sql_space c then skip_spaces r else s
  | [] => []
  end.

Definition take_sign (s : list ascii) : bool * list ascii :=
  match s with
  | c :: r =>
      if (c =? "-")%char then (true, r)
      else if (c =? "+")%char then (false, r)
      else (false, s)
  | [] => (false, s)
  end.

Definition digits_value (ds : list ascii) : Z :=
  fold_left (fun acc d => 10 * acc + Z.of_N (code d - 48)) ds 0.

(** A text that is a numeric literal as a whole, between optional
    spaces: a sign, digits with an optional decimal point, an optional
    exponent.  The result [(m, k)] stands for [m * 10 ^ k]. *)
Definition numeric_literal (s : string) : option (Z * Z) :=
  let '(negative, s1) := take_sign (skip_spaces (chars s)) in
  let '(whole, s2) := span_digits s1 in
  let '(fraction, s3) :=
    match s2 with
    | c :: r => if (c =? ".")%char then span_digits r else ([], s2)
    | [] => ([], s2)
    end in
  let exponent :=
    match s3 with
    | c :: r =>
        if (c =? "e")%char || (c =? "E")%char then
          let '(down, r1) := take_sign r in
          let '(ds, r2) := span_digits r1 in
          match ds with
          | [] => None
          | _ :: _ => Some (if down then - digits_value ds else digits_value ds, r2)
          end
        else Some (0, s3)
    | [] => Some (0, s3)
    end in
  match whole ++ fraction, exponent with
  | (_ :: _) as ds, Some (ex, s4) =>
      match skip_spaces s4 with
      | [] =>
          let m := digits_value ds in
          Some (if negative then - m else m, ex - Z.of_nat (List.length fraction))
      | _ :: _ => None
      end
  | _, _ => None
  end.

(** The integer a text denotes, if it is a numeric literal with an
    integral value. *)
Definition int_of_text (s : string) : option Z :=
  match numeric_literal s with
  | Some (m, k) =>
      if 0 <=? k then Some (m * 10 ^ k)
      else if m mod 10 ^ (- k) =? 0 then Some (m / 10 ^ (- k))
      else None
  | None => None
  end.

(** INTEGER affinity: a text that denotes an integer is stored as that
    integer; any other text stays text, and so does in the model a text
    that denotes a fraction, which SQLite turns into a REAL.  SQLite
    reads the text through a double: the reading of the model is exact
    for an integer that a double holds, up to [2 ^ 53]. *)
Definition integer_affinity (v : sqlval) : sqlval :=
  match v with
  | SqlText s =>
      match int_of_text s with
      | Some n => SqlInt n
      | None => v
      end
  | _ => v
  end.

(** A [TEXT NOT NULL] column: [None] is the constraint failure. *)
Definition text_column (v : sqlval) : option string :=
  match text_affinity v with
  | SqlText s => Some s
  | _ => None
  end.

(** An [INTEGER NOT NULL] column. *)
Definition integer_column (v : sqlval) : option sqlval :=
  match integer_affinity v with
  | SqlNull => None
  | w => Some w
  end.

(** What a column value is in the row object the driver hands back. *)
Definition js_of_sql (v : sqlval) : json :=
  match v with
  | SqlNull => JNull
  | SqlInt n => JNum n
  | SqlInf negative => JNum (Infinity negative)
  | SqlText s => JStr s
  end.

(** [`${v}`] for a column value. *)
Definition template_of_sql (v : sqlval) : string :=
  match v with
  | SqlNull => "null"
  | SqlInt n => string_of_Z n
  | SqlInf negative => if negative then "-Infinity" else "Infinity"
  | SqlText s => s
  end.

(** The integer a text starts with, zero when it starts with none.
    SQLite reads the longest numeric prefix, with its fraction and its
    exponent, as a REAL: the two agree on a text that starts with no
    number and on one whose number is a plain integer. *)
Definition numeric_prefix (s : string) : Z :=
  let cs := skip_ws (chars s) in
  let '(negative, s1) :=
    match cs with
    | c :: r =>
        if (c =? "-")%char then (true, r)
        else if (c =? "+")%char then (false, r)
        else (false, cs)
    | [] => (false, cs)
    end in
  let n := fold_left (fun acc d => 10 * acc + Z.of_N (code d - 48))
                     (fst (span_digits s1)) 0 in
  if negative then - n else n.

(** The finite number [sum()] reads in a value. *)
Definition numeric_of_sql (v : sqlval) : Z :=
  match v with
  | SqlNull => 0
  | SqlInt n => n
  | SqlInf _ => 0
  | SqlText s => numeric_prefix s
  end.

Definition is_infinite (negative : bool) (v : sqlval) : bool :=
  match v with
  | SqlInf b => Bool.eqb b negative
  | _ => false
  end.

(** Table [guests]. *)
Record guest : Type := mkGuest {
  g_id : Z;
  g_name : string;
  g_email : string;
  g_gallery_name : string;
  g_gallery_id : string;
  g_visit_date : string;
  g_created_at : string
}.

(** Table [orders]. *)
Record order : Type := mkOrder {
  o_id : Z;
  o_name : string;
  o_email : string;
  o_gallery_name : string;
  o_gallery_id : string;
  o_photo_count : sqlval;
  o_photos : string;
  o_submitted_at : string;
  o_created_at : string
}.

(** A table with an [INTEGER PRIMARY KEY AUTOINCREMENT]: its rows in
    rowid order and the entry of [sqlite_sequence], the largest key
    ever assigned, which no DELETE lowers. *)
Record table (row : Type) : Type := mkTable {
  rows : list row;
  seq : Z
}.
Arguments mkTable {row} _ _.
Arguments rows {row} _.
Arguments seq {row} _.

Definition empty_table {row : Type} : table row := mkTable [] 0.

(** The key of the next inserted row. *)
Definition next_id {row : Type} (t : table row) : Z := seq t + 1.

Definition insert_row {row : Type} (r : row) (t : table row) : table row :=
  mkTable (rows t ++ [r]) (next_id t).

(** [INSERT INTO guests (name, email, gallery_name, gallery_id,
    visit_date) VALUES (?, ?, ?, ?, ?)]; [created_at] takes its default
    [CURRENT_TIMESTAMP].  The result is [this.lastID], or [None] when a
    NOT NULL constraint fails. *)
Definition insert_guest (timestamp : string)
    (name email gallery_name gallery_id visit_date : sqlval)
    (t : table guest) : option Z * table guest :=
  match text_column name, text_column email, text_column gallery_name,
        text_column gallery_id, text_column visit_date with
  | Some n, Some e, Some gn, Some gi, Some vd =>
      let id := next_id t in
      (Some id, insert_row (mkGuest id n e gn gi vd timestamp) t)
  | _, _, _, _, _ => (None, t)
  end.

(** [INSERT INTO orders (name, email, gallery_name, gallery_id,
    photo_count, photos, submitted_at) VALUES (?, ?, ?, ?, ?, ?, ?)] *)
Definition insert_order (timestamp : string)
    (name email gallery_name gallery_id photo_count photos submitted_at : sqlval)
    (t : table order) : option Z * table order :=
  match text_column name, text_column email, text_column gallery_name,
        text_column gallery_id, integer_column photo_count,
        text_column photos, text_column submitted_at with
  | Some n, Some e, Some gn, Some gi, Some pc, Some ph, Some sa =>
      let id := next_id t in
      (Some id, insert_row (mkOrder id n e gn gi pc ph sa timestamp) t)
  | _, _, _, _, _, _, _ => (None, t)
  end.

(** [id = ?]: the key column gives its INTEGER affinity to the bound
    parameter before the comparison. *)
Definition id_equals (p : sqlval) (id : Z) : bool :=
  match integer_affinity p with
  | SqlInt n => n =? id
  | _ => false
  end.

(** [DELETE FROM t WHERE id = ?]; the result is [this.changes]. *)
Definition delete_where_id {row : Type} (key : row -> Z) (p : sqlval)
    (t : table row) : nat * table row :=
  let kept := filter (fun r => negb (id_equals p (key r))) (rows t) in
  ((List.length (rows t) - List.length kept)%nat, mkTable kept (seq t)).

(** [DELETE FROM t] *)
Definition delete_all {row : Type} (t : table row) : nat * table row :=
  (List.length (rows t), mkTable [] (seq t)).

(** [ORDER BY created_at DESC]: texts compare byte by byte; rows with
    equal keys stay in rowid order. *)
Fixpoint insert_desc {row : Type} (key : row -> string) (x : row) (l : list row)
  : list row :=
  match l with
  | [] => [x]
  | y :: l' =>
      if (key y <=? key x)%string then x :: y :: l'
      else y :: insert_desc key x l'
  end.

Definition order_by_desc {row : Type} (key : row -> string) (l : list row)
  : list row :=
  fold_right (insert_desc key) [] l.

(** [SELECT * FROM guests ORDER BY created_at DESC] *)
Definition select_guests (t : table guest) : list guest :=
  order_by_desc g_created_at (rows t).

(** [SELECT * FROM orders ORDER BY created_at DESC] *)
Definition select_orders (t : table order) : list order :=
  order_by_desc o_created_at (rows t).

(** [gallery_id = ?] on a TEXT column: the parameter takes TEXT
    affinity, then the texts are compared. *)
Definition gallery_equals (p : sqlval) (gallery_id : string) : bool :=
  match text_affinity p with
  | SqlText s => (gallery_id =? s)%string
  | _ => false
  end.

(** [SELECT * FROM orders WHERE gallery_id = ? ORDER BY created_at DESC] *)
Definition select_orders_where_gallery (p : sqlval) (t : table order) : list order :=
  order_by_desc o_created_at
    (filter (fun o => gallery_equals p (o_gallery_id o)) (rows t)).

(** [SELECT COUNT( * ) as count FROM t] *)
Definition select_count {row : Type} (t : table row) : sqlval :=
  SqlInt (Z.of_nat (List.length (rows t))).

(** [SELECT SUM(photo_count) as count FROM orders]: NULL on no rows,
    the integer total of a column of INTEGER values.  An infinite REAL
    makes the total infinite, and both infinities make it no number,
    which SQLite returns as NULL.  A total beyond 64 bits is an error
    of the statement: it is one of the failures that [db_fails]
    stands for.  Of a value that stayed a text the total counts
    [numeric_prefix]. *)
Definition select_sum_photo_count (t : table order) : sqlval :=
  let column := map o_photo_count (rows t) in
  match column with
  | [] => SqlNull
  | _ :: _ =>
      match existsb (is_infinite false) column, existsb (is_infinite true) column with
      | true, true => SqlNull
      | true, false => SqlInf false
      | false, true => SqlInf true
      | false, false => SqlInt (fold_right (fun v acc => numeric_of_sql v + acc) 0 column)
      end
  end.

(** The database file: both tables. *)
Record store : Type := mkStore {
  guests : table guest;
  orders : table order
}.

(** The store after [initDatabase] on a fresh file. *)
Definition init_store : store := mkStore empty_table empty_table.

End Sql.
Import Sql.

(* ================================================================= *)
(** ** The route handlers *)

Module Server.

(** What a handler reads from outside the store while it serves one
    request. *)
Record env : Type := mkEnv {
  (** [new Date().toISOString()] *)
  now_iso : string;
  (** SQLite's [CURRENT_TIMESTAMP] *)
  current_timestamp : string;
  (** whether the storage engine fails the [k]-th statement of the
      request (the [err] argument of the callback) for a reason of its
      own, such as an I/O error *)
  db_fails : nat -> bool
}.

Inductive response : Type :=
| Json (status : Z) (body : json)
    (** [res.status(status).json(body)] *)
| Download (content_type disposition body : string)
    (** [res.header(...)] twice, then [res.send(body)] *)
| Thrown.
    (** an exception escapes the callback *)

Definition ok (body : list (string * json)) : response := Json 200 (JObj body).

Definition missing_fields : response :=
  Json 400 (JObj [("error"%string, JStr "Missing required fields")]).

Definition database_error : response :=
  Json 500 (JObj [("error"%string, JStr "Database error")]).

(** The row objects of [db.all]. *)
Definition guest_object (g : guest) : json :=
  JObj [("id"%string, JNum (g_id g));
        ("name"%string, JStr (g_name g));
        ("email"%string, JStr (g_email g));
        ("gallery_name"%string, JStr (g_gallery_name g));
        ("gallery_id"%string, JStr (g_gallery_id g));
        ("visit_date"%string, JStr (g_visit_date g));
        ("created_at"%string, JStr (g_created_at g))].

Definition order_properties (o : order) : list (string * json) :=
  [("id"%string, JNum (o_id o));
   ("name"%string, JStr (o_name o));
   ("email"%string, JStr (o_email o));
   ("gallery_name"%string, JStr (o_gallery_name o));
   ("gallery_id"%string, JStr (o_gallery_id o));
   ("photo_count"%string, js_of_sql (o_photo_count o));
   ("photos"%string, JStr (o_photos o));
   ("submitted_at"%string, JStr (o_submitted_at o));
   ("created_at"%string, JStr (o_created_at o))].

(** [order => ({...order, photos: JSON.parse(order.photos)})] *)
Definition parse_photos (o : order) : option json :=
  match parse (o_photos o) with
  | Some v => Some (JObj (set_prop "photos" v (order_properties o)))
  | None => None
  end.

(** [rows.map(f)] where [f] may throw. *)
Fixpoint map_throwing {A B : Type} (f : A -> option B) (l : list A) : option (list B) :=
  match l with
  | [] => Some []
  | x :: l' =>
      match f x with
      | Some y =>
          match map_throwing f l' with
          | Some ys => Some (y :: ys)
          | None => None
          end
      | None => None
      end
  end.

(** [GET /api/health] *)
Definition get_health (e : env) (s : store) : response * store :=
  (ok [("status"%string, JStr "ok"); ("timestamp"%string, JStr (now_iso e))], s).

(** [POST /api/guests] *)
Definition post_guest (e : env) (body : json) (s : store) : response * store :=
  let name := prop body "name" in
  let email := prop body "email" in
  let galleryName := prop body "galleryName" in
  let galleryId := prop body "galleryId" in
  let visitDate := prop body "visitDate" in
  if js_not name || js_not email || js_not galleryName || js_not galleryId then
    (missing_fields, s)
  else if db_fails e 0 then (database_error, s)
  else
    match insert_guest (current_timestamp e)
            (bind_param name) (bind_param email) (bind_param galleryName)
            (bind_param galleryId)
            (bind_param (Some (js_or visitDate (JStr (now_iso e)))))
            (guests s) with
    | (Some lastID, t) =>
        (ok [("success"%string, JBool true);
             ("id"%string, JNum lastID);
             ("message"%string, JStr "Guest info saved successfully")],
         mkStore t (orders s))
    | (None, _) => (database_error, s)
    end.

(** [POST /api/orders] *)
Definition post_order (e : env) (body : json) (s : store) : response * store :=
  let name := prop body "name" in
  let email := prop body "email" in
  let galleryName := prop body "galleryName" in
  let galleryId := prop body "galleryId" in
  let photos := prop body "photos" in
  let submittedAt := prop body "submittedAt" in
  if js_not name || js_not email || js_not galleryName || js_not galleryId
     || js_not photos then
    (missing_fields, s)
  else
    match photos with
    | None => (missing_fields, s)    (* [undefined] is falsy: covered above *)
    | Some photos =>
        let photoCount := js_length photos in
        let photosJson := stringify photos in
        if db_fails e 0 then (database_error, s)
        else
          match insert_order (current_timestamp e)
                  (bind_param name) (bind_param email) (bind_param galleryName)
                  (bind_param galleryId) (bind_param photoCount)
                  (bind_param (Some (JStr photosJson)))
                  (bind_param (Some (js_or submittedAt (JStr (now_iso e)))))
                  (orders s) with
          | (Some lastID, t) =>
              (ok [("success"%string, JBool true);
                   ("id"%string, JNum lastID);
                   ("message"%string, JStr "Order submitted successfully")],
               mkStore (guests s) t)
          | (None, _) => (database_error, s)
          end
    end.

(** [GET /api/guests] *)
Definition get_guests (e : env) (s : store) : response * store :=
  if db_fails e 0 then (database_error, s)
  else
    (ok [("success"%string, JBool true);
         ("guests"%string, JArr (map guest_object (select_guests (guests s))))], s).

Definition orders_response (rows : list order) : response :=
  match map_throwing parse_photos rows with
  | Some orders => ok [("success"%string, JBool true); ("orders"%string, JArr orders)]
  | None => Thrown
  end.

(** [GET /api/orders] *)
Definition get_orders (e : env) (s : store) : response * store :=
  if db_fails e 0 then (database_error, s)
  else (orders_response (select_orders (orders s)), s).

(** [GET /api/orders/:galleryId] *)
Definition get_orders_by_gallery (e : env) (galleryId : string) (s : store)
  : response * store :=
  if db_fails e 0 then (database_error, s)
  else
    (orders_response (select_orders_where_gallery (SqlText galleryId) (orders s)), s).

(** [DELETE /api/guests/:id] *)
Definition delete_guest (e : env) (id : string) (s : store) : response * store :=
  if db_fails e 0 then (database_error, s)
  else
    let '(_, t) := delete_where_id g_id (SqlText id) (guests s) in
    (ok [("success"%string, JBool true); ("message"%string, JStr "Guest deleted")],
     mkStore t (orders s)).

(** [DELETE /api/orders/:id] *)
Definition delete_order (e : env) (id : string) (s : store) : response * store :=
  if db_fails e 0 then (database_error, s)
  else
    let '(_, t) := delete_where_id o_id (SqlText id) (orders s) in
    (ok [("success"%string, JBool true); ("message"%string, JStr "Order deleted")],
     mkStore (guests s) t).

(** [DELETE /api/guests] *)
Definition delete_guests (e : env) (s : store) : response * store :=
  if db_fails e 0 then (database_error, s)
  else
    let '(changes, t) := delete_all (guests s) in
    (ok [("success"%string, JBool true);
         ("message"%string, JStr "All guests cleared");
         ("deleted"%string, JNum (Z.of_nat changes))],
     mkStore t (orders s)).

(** [DELETE /api/orders] *)
Definition delete_orders (e : env) (s : store) : response * store :=
  if db_fails e 0 then (database_error, s)
  else
    let '(changes, t) := delete_all (orders s) in
    (ok [("success"%string, JBool true);
         ("message"%string, JStr "All orders cleared");
         ("deleted"%string, JNum (Z.of_nat changes))],
     mkStore (guests s) t).

(** [lines.join('\n')] *)
Fixpoint join_lines (lines : list string) : string :=
  match lines with
  | [] => ""
  | [l] => l
  | l :: ls => (l ++ String "010" (join_lines ls))%string
  end.

(** ["${v}"] inside a template literal *)
Definition quoted (v : string) : string :=
  String dquote (v ++ String dquote "")%string.

Definition guests_header : string :=
  "ID,Name,Email,Gallery Name,Gallery ID,Visit Date,Created At".

Definition guest_line (r : guest) : string :=
  (string_of_Z (g_id r) ++ "," ++ quoted (g_name r) ++ "," ++ quoted (g_email r)
   ++ "," ++ quoted (g_gallery_name r) ++ "," ++ quoted (g_gallery_id r)
   ++ "," ++ quoted (g_visit_date r) ++ "," ++ quoted (g_created_at r))%string.

Definition orders_header : string :=
  "ID,Name,Email,Gallery Name,Gallery ID,Photo Count,Submitted At,Created At".

Definition order_line (r : order) : string :=
  (string_of_Z (o_id r) ++ "," ++ quoted (o_name r) ++ "," ++ quoted (o_email r)
   ++ "," ++ quoted (o_gallery_name r) ++ "," ++ quoted (o_gallery_id r)
   ++ "," ++ template_of_sql (o_photo_count r)
   ++ "," ++ quoted (o_submitted_at r) ++ "," ++ quoted (o_created_at r))%string.

(** [GET /api/export/guests] *)
Definition export_guests (e : env) (s : store) : response * store :=
  if db_fails e 0 then (database_error, s)
  else
    (Download "text/csv" "attachment; filename=guests.csv"
       (join_lines (guests_header :: map guest_line (select_guests (guests s)))), s).

(** [GET /api/export/orders] *)
Definition export_orders (e : env) (s : store) : response * store :=
  if db_fails e 0 then (database_error, s)
  else
    (Download "text/csv" "attachment; filename=orders.csv"
       (join_lines (orders_header :: map order_line (select_orders (orders s)))), s).

(** [GET /api/stats]: three statements, one inside the callback of the
    other. *)
Definition get_stats (e : env) (s : store) : response * store :=
  if db_fails e 0 then (database_error, s)
  else
    let totalGuests := js_of_sql (select_count (guests s)) in
    if db_fails e 1 then (database_error, s)
    else
      let totalOrders := js_of_sql (select_count (orders s)) in
      if db_fails e 2 then (database_error, s)
      else
        let sum := js_of_sql (select_sum_photo_count (orders s)) in
        let totalPhotosOrdered := js_or (Some sum) (JNum 0) in
        (ok [("success"%string, JBool true);
             ("stats"%string,
              JObj [("totalGuests"%string, totalGuests);
                    ("totalOrders"%string, totalOrders);
                    ("totalPhotosOrdered"%string, totalPhotosOrdered)])], s).

(** The requests the server routes. *)
Inductive request : Type :=
| GetHealth
| PostGuest (body : json)
| PostOrder (body : json)
| GetGuests
| GetOrders
| GetOrdersByGallery (galleryId : string)
| DeleteGuest (id : string)
| DeleteOrder (id : string)
| DeleteGuests
| DeleteOrders
| ExportGuests
| ExportOrders
| GetStats.

Definition handle (e : env) (r : request) (s : store) : response * store :=
  match r with
  | GetHealth => get_health e s
  | PostGuest body => post_guest e body s
  | PostOrder body => post_order e body s
  | GetGuests => get_guests e s
  | GetOrders => get_orders e s
  | GetOrdersByGallery galleryId => get_orders_by_gallery e galleryId s
  | DeleteGuest id => delete_guest e id s
  | DeleteOrder id => delete_order e id s
  | DeleteGuests => delete_guests e s
  | DeleteOrders => delete_orders e s
  | ExportGuests => export_guests e s
  | ExportOrders => export_orders e s
  | GetStats => get_stats e s
  end.

(** The stores the server can be in: it starts on the fresh database
    and only its handlers write to it. *)
Inductive reachable : store -> Prop :=
| reach_init : reachable init_store
| reach_step e r s : reachable s -> reachable (snd (handle e r s)).

(** A run of the server: the requests in the order they are served,
    each with the environment it is served in. *)
Fixpoint run (trace : list (env * request)) (s : store)
  : list (request * response) * store :=
  match trace with
  | [] => ([], s)
  | (e, r) :: rest =>
      let '(resp, s1) := handle e r s in
      let '(log, s2) := run rest s1 in
      ((r, resp) :: log, s2)
  end.

End Server.
Import Server.

(* ================================================================= *)
(** ** Notions used to state and prove the properties *)

Module Props.

(** *** Measures for the parser *)

(** Structural induction through the nested lists. *)
Section JsonInd.
Variable P : json -> Prop.
Hypothesis HNull : P JNull.
Hypothesis HBool : forall b, P (JBool b).
Hypothesis HNum : forall n, P (JNum n).
Hypothesis HStr : forall s, P (JStr s).
Hypothesis HArr : forall l, Forall P l -> P (JArr l).
Hypothesis HObj : forall m, Forall (fun kv => P (snd kv)) m -> P (JObj m).

Fixpoint json_nested_ind (v : json) : P v :=
  match v with
  | JNull => HNull
  | JBool b => HBool b
  | JNum n => HNum n
  | JStr s => HStr s
  | JArr l =>
      HArr l ((fix all (l : list json) : Forall P l :=
                 match l with
                 | [] => Forall_nil _
                 | x :: xs => Forall_cons x (json_nested_ind x) (all xs)
                 end) l)
  | JObj m =>
      HObj m ((fix all (m : list (string * json)) : Forall (fun kv => P (snd kv)) m :=
                 match m with
                 | [] => Forall_nil _
                 | kv :: xs => Forall_cons kv (json_nested_ind (snd kv)) (all xs)
                 end) m)
  end.
End JsonInd.

(** The fuel a value needs. *)
Fixpoint size (v : json) : nat :=
  match v with
  | JArr l => S (fold_right (fun x acc => S (size x + acc)) O l)
  | JObj m => S (fold_right (fun kv acc => S (size (snd kv) + acc)) O m)
  | _ => 1%nat
  end.

(** What may follow a value in a serialised text: the end of the text
    or a character that cannot continue a number. *)
Definition ends_number (rest : list ascii) : Prop :=
  match rest with
  | [] => True
  | c :: _ =>
      is_digit c = false /\
      ((c =? ".")%char || (c =? "e")%char || (c =? "E")%char) = false
  end.

(** The value that the JSON text of a number denotes: JSON has no
    text for an infinity, which is written as [null], and none for
    negative zero, which is written as [0]. *)
Definition reread_number (x : number) : json :=
  match x with
  | Int n => JNum n
  | NegZero => JNum 0
  | Infinity _ => JNull
  end.

(** The value that the JSON text of [v] denotes. *)
Fixpoint reread (v : json) : json :=
  match v with
  | JNum x => reread_number x
  | JArr l => JArr (map reread l)
  | JObj m => JObj (map (fun kv => (fst kv, reread (snd kv))) m)
  | _ => v
  end.

(** A value that holds no infinity and no negative zero. *)
Fixpoint plain (v : json) : bool :=
  match v with
  | JNum (Int _) => true
  | JNum _ => false
  | JArr l => forallb plain l
  | JObj m => forallb (fun kv => plain (snd kv)) m
  | _ => true
  end.

(** The parser reads the text of [v] back, whatever follows it. *)
Definition parses_back (v : json) : Prop :=
  forall fuel rest,
    (size v < fuel)%nat -> ends_number rest ->
    parse_value fuel (print v ++ rest) = Some (reread v, rest).

Definition size_elements (l : list json) : nat :=
  fold_right (fun x acc => S (size x + acc)) O l.

Definition size_members (m : list (string * json)) : nat :=
  fold_right (fun kv acc => S (size (snd kv) + acc)) O m.

Definition print_member (kv : string * json) : list ascii :=
  quote (fst kv) ++ ":"%char :: print (snd kv).

(** *** Listings *)

(** [l] lists its rows by descending key. *)
Definition descending {row : Type} (key : row -> string) (l : list row) : Prop :=
  StronglySorted (fun a b => (key b <=? key a)%string = true) l.

(** *** The create handlers *)

(** [name], [email], [galleryName] and [galleryId] are all truthy. *)
Definition guest_fields_present (body : json) : bool :=
  truthy (prop body "name") && truthy (prop body "email")
  && truthy (prop body "galleryName") && truthy (prop body "galleryId").

(** ... and so is [photos]. *)
Definition order_fields_present (body : json) : bool :=
  guest_fields_present body && truthy (prop body "photos").

(** The row a guest request stores. *)
Definition guest_row (e : env) (body : json) (id : Z) (g : guest) : Prop :=
  g_id g = id /\
  text_column (bind_param (prop body "name")) = Some (g_name g) /\
  text_column (bind_param (prop body "email")) = Some (g_email g) /\
  text_column (bind_param (prop body "galleryName")) = Some (g_gallery_name g) /\
  text_column (bind_param (prop body "galleryId")) = Some (g_gallery_id g) /\
  text_column (bind_param (Some (js_or (prop body "visitDate") (JStr (now_iso e)))))
    = Some (g_visit_date g) /\
  g_created_at g = current_timestamp e.

(** The row an order request stores. *)
Definition order_row (e : env) (body : json) (id : Z) (photos : json) (o : order) : Prop :=
  o_id o = id /\
  text_column (bind_param (prop body "name")) = Some (o_name o) /\
  text_column (bind_param (prop body "email")) = Some (o_email o) /\
  text_column (bind_param (prop body "galleryName")) = Some (o_gallery_name o) /\
  text_column (bind_param (prop body "galleryId")) = Some (o_gallery_id o) /\
  integer_column (bind_param (js_length photos)) = Some (o_photo_count o) /\
  o_photos o = stringify photos /\
  text_column (bind_param (Some (js_or (prop body "submittedAt") (JStr (now_iso e)))))
    = Some (o_submitted_at o) /\
  o_created_at o = current_timestamp e.

(** *** Steps and invariant of the store *)

(** What one request can do to the store. *)
Inductive store_step (s : store) : store -> Prop :=
| step_same : store_step s s
| step_new_guest g :
    g_id g = next_id (guests s) ->
    store_step s (mkStore (insert_row g (guests s)) (orders s))
| step_new_order o photos :
    truthy (Some photos) = true ->
    o_id o = next_id (orders s) ->
    o_photos o = stringify photos ->
    integer_column (bind_param (js_length photos)) = Some (o_photo_count o) ->
    store_step s (mkStore (guests s) (insert_row o (orders s)))
| step_delete_guests keep :
    store_step s (mkStore (mkTable (filter keep (rows (guests s))) (seq (guests s)))
                          (orders s))
| step_delete_orders keep :
    store_step s (mkStore (guests s)
                          (mkTable (filter keep (rows (orders s))) (seq (orders s)))).

(** An order row as the create handler writes it: a key that the
    sequence covers, the serialisation of a truthy [photos] and the
    bound [photos.length]. *)
Definition stored_order (t : table order) (o : order) : Prop :=
  o_id o <= seq t /\
  exists photos,
    truthy (Some photos) = true /\
    o_photos o = stringify photos /\
    integer_column (bind_param (js_length photos)) = Some (o_photo_count o).

(** The invariant of the reachable stores. *)
Definition store_ok (s : store) : Prop :=
  Forall (fun g => g_id g <= seq (guests s)) (rows (guests s)) /\
  Forall (stored_order (orders s)) (rows (orders s)).

(** *** What the list handlers return *)

(** The value of the [photos] column, [null] when it is no JSON text. *)
Definition photos_value (o : order) : json :=
  match parse (o_photos o) with
  | Some v => v
  | None => JNull
  end.

(** The object a list handler returns for a row. *)
Definition order_view (o : order) : json :=
  JObj (set_prop "photos" (photos_value o) (order_properties o)).


(** *** Notions of the properties *)

Definition guest_required : list string :=
  ["name"; "email"; "galleryName"; "galleryId"]%string.

Definition order_required : list string :=
  ["name"; "email"; "galleryName"; "galleryId"; "photos"]%string.

(** A required field that is missing or empty: absent, the empty
    string or the empty list. *)
Definition missing_or_empty (v : jsval) : Prop :=
  v = None \/ v = Some (JStr "") \/ v = Some (JArr []).

(** The sum of a list of integers. *)
Definition total (counts : list Z) : Z := fold_right Z.add 0 counts.

(** The rows hold the photo counts [counts], in the order of the rows:
    integers, none negative, with a total that a double holds.  This is
    what orders give whose [photos] are lists or strings. *)
Definition photo_counts (l : list order) (counts : list Z) : Prop :=
  map o_photo_count l = map SqlInt counts /\
  Forall (fun n => 0 <= n) counts /\
  total counts <= 2 ^ 53.


(** The id a guest create request was answered with, if it succeeded. *)
Definition created_guest_id (entry : request * response) : option Z :=
  match entry with
  | (PostGuest _, Json 200 body) =>
      match prop body "id" with
      | Some (JNum (Int id)) => Some id
      | _ => None
      end
  | _ => None
  end.

Fixpoint created_guest_ids (log : list (request * response)) : list Z :=
  match log with
  | [] => []
  | entry :: log' =>
      match created_guest_id entry with
      | Some id => id :: created_guest_ids log'
      | None => created_guest_ids log'
      end
  end.

(** The lines that follow the first one, each after its line feed. *)
Fixpoint lines_after (lines : list string) : string :=
  match lines with
  | [] => ""
  | l :: ls => String "010" (l ++ lines_after ls)
  end.

End Props.
Import Props.

(* ================================================================= *)
(** ** Sample requests and stores *)

Module Samples.

(** An environment without storage faults, for the examples. *)
Definition calm : env :=
  mkEnv "2024-05-01T10:00:00.000Z" "2024-05-01 10:00:00" (fun _ => false).

Definition ann_guest : json :=
  JObj [("name"%string, JStr "Ann"); ("email"%string, JStr "a@x.com");
        ("galleryName"%string, JStr "Spring"); ("galleryId"%string, JStr "g1")].

Definition ann_order (photos : json) : json :=
  JObj [("name"%string, JStr "Ann"); ("email"%string, JStr "a@x.com");
        ("galleryName"%string, JStr "Spring"); ("galleryId"%string, JStr "g1");
        ("photos"%string, photos)].

Definition no_email : json :=
  JObj [("name"%string, JStr "Ann"); ("galleryName"%string, JStr "Spring");
        ("galleryId"%string, JStr "g1"); ("photos"%string, JArr [JStr "p1"])].

Definition two_galleries : store :=
  snd (handle calm (PostOrder (ann_order (JArr [JStr "p1"])))
         (snd (handle calm
                 (PostOrder (JObj [("name"%string, JStr "Bob");
                                   ("email"%string, JStr "b@x.com");
                                   ("galleryName"%string, JStr "Autumn");
                                   ("galleryId"%string, JStr "g2");
                                   ("photos"%string, JArr [JStr "q1"; JStr "q2"])]))
                 init_store))).

Definition empty_order_row : order :=
  mkOrder 1 "Ann" "a@x.com" "Spring" "g1" (SqlInt 0) "[]"
    "2024-05-01T10:00:00.000Z" "2024-05-01 10:00:00".

(** A guest whose name holds a double quote. *)
Definition quoted_guest : json :=
  JObj [("name"%string, JStr (String "A" (String dquote "nn")));
        ("email"%string, JStr "a@x.com");
        ("galleryName"%string, JStr "Spring, 2024");
        ("galleryId"%string, JStr "g1");
        ("visitDate"%string, JStr "today")].

Definition blank_dates : json :=
  JObj [("name"%string, JStr "Ann"); ("email"%string, JStr "a@x.com");
        ("galleryName"%string, JStr "Spring"); ("galleryId"%string, JStr "g1");
        ("photos"%string, JArr [JStr "p1"]);
        ("visitDate"%string, JStr ""); ("submittedAt"%string, JStr "")].

End Samples.
Import Samples.

(* ================================================================= *)
(** ** Sample runs of the serialiser *)

Example stringify_sample :
  stringify (JArr [JStr "a.jpg"; JNum (-12); JObj [("k"%string, JArr []); ("z"%string, JNull)]; JBool true])
  = String "[" (String dquote ("a.jpg" ++ String dquote
      (",-12,{" ++ String dquote ("k" ++ String dquote (":[]," ++ String dquote
      ("z" ++ String dquote ":null},true]"))))))%string.
Proof. reflexivity. Qed.

Example parse_sample :
  parse (stringify (JArr [JStr "a.jpg"; JNum (-12); JObj [("k"%string, JArr []); ("z"%string, JNull)]; JBool true]))
  = Some (JArr [JStr "a.jpg"; JNum (-12); JObj [("k"%string, JArr []); ("z"%string, JNull)]; JBool true]).
Proof. vm_compute. reflexivity. Qed.

Example parse_spaces :
  parse " [ 1 , { } ,[ ] ] "%string = Some (JArr [JNum 1; JObj []; JArr []]).
Proof. vm_compute. reflexivity. Qed.

Example parse_leading_zero : parse "[01]"%string = None.
Proof. vm_compute. reflexivity. Qed.

(** Numbers that JSON cannot write. *)
Example stringify_not_finite :
  stringify (JArr [JNum (Infinity false); JNum (Infinity true); JNum NegZero; JNum 7])
  = "[null,null,0,7]"%string.
Proof. reflexivity. Qed.

Example parse_negative_zero : parse "[-0,0]"%string = Some (JArr [JNum NegZero; JNum 0]).
Proof. vm_compute. reflexivity. Qed.

(** Texts that SQLite reads as an integer. *)
Example int_of_text_samples :
  map int_of_text ["5"; "05"; " 5 "; "+5"; "-12"; "5.0"; "1e2"; "2.50e1"; "1.5"; "5x"; ""; "e5"]%string
  = [Some 5; Some 5; Some 5; Some 5; Some (-12); Some 5; Some 100; Some 25; None; None; None; None].
Proof. vm_compute. reflexivity. Qed.

(* ================================================================= *)
(** ** [JSON.parse] inverts [JSON.stringify] *)

Module JSONFacts.

(** *** Strings *)

Lemma parse_chars_escape_char c tl :
  parse_chars (escape_char c ++ tl) =
  match parse_chars tl with
  | Some (cs, rest) => Some (c :: cs, rest)
  | None => None
  end.
Proof.
  destruct c as [[] [] [] [] [] [] [] []]; reflexivity.
Qed.

Lemma parse_chars_escaped s rest :
  parse_chars (flat_map escape_char s ++ dquote :: rest) = Some (s, rest).
Proof.
  induction s as [|c s IH]; [reflexivity|].
  cbn [flat_map]. rewrite <- app_assoc, parse_chars_escape_char, IH.
  reflexivity.
Qed.

Lemma chars_string s : string_of_list_ascii (chars s) = s.
Proof. apply string_of_list_ascii_of_string. Qed.

Lemma parse_chars_quote s rest :
  exists body, quote s ++ rest = dquote :: body /\
               parse_chars body = Some (chars s, rest).
Proof.
  exists (flat_map escape_char (chars s) ++ dquote :: rest). split.
  - unfold quote. cbn [Datatypes.app]. rewrite <- app_assoc. reflexivity.
  - apply parse_chars_escaped.
Qed.

(** *** Numbers *)

Lemma to_int_proper n : Z.to_int n <> Decimal.Pos Decimal.Nil /\ Z.to_int n <> Decimal.Neg Decimal.Nil.
Proof.
  destruct n as [|p|p]; cbn; split; try discriminate;
    intros [= H]; exact (DecimalPos.Unsigned.to_uint_nonnil p H).
Qed.

Lemma int_of_string_of_Z n : NilZero.int_of_string (string_of_Z n) = Some (Z.to_int n).
Proof. unfold string_of_Z. apply NilZero.isi; apply to_int_proper. Qed.

Lemma string_of_Z_inj n m : string_of_Z n = string_of_Z m -> n = m.
Proof.
  intros H. apply (f_equal NilZero.int_of_string) in H.
  rewrite !int_of_string_of_Z in H. injection H as H.
  now apply DecimalZ.to_int_inj.
Qed.

Lemma string_of_Z_not_minus_zero n : (string_of_Z n =? "-0")%string = false.
Proof.
  apply String.eqb_neq. intros H.
  pose proof (int_of_string_of_Z n) as E. rewrite H in E. cbn in E.
  injection E as E. destruct n as [|p|p]; cbn in E; try discriminate E.
  injection E as E. symmetry in E.
  exact (DecimalPos.Unsigned.to_uint_nonzero p E).
Qed.

Lemma uint_digits d : forallb is_digit (chars (NilEmpty.string_of_uint d)) = true.
Proof. induction d; cbn; auto. Qed.

Lemma span_digits_app ds rest :
  forallb is_digit ds = true -> ends_number rest ->
  span_digits (ds ++ rest) = (ds, rest).
Proof.
  intros Hds Hrest.
  induction ds as [|c ds IH]; cbn [span_digits Datatypes.app forallb] in *.
  - destruct rest as [|c r]; [reflexivity|].
    destruct Hrest as [Hc _]. cbn [span_digits]. now rewrite Hc.
  - apply andb_true_iff in Hds as [Hc Hds]. now rewrite Hc, IH.
Qed.

(** The text of an integer: an optional sign, then at least one digit. *)
Lemma string_of_Z_shape n :
  exists sign d ds,
    chars (string_of_Z n) = sign ++ d :: ds /\
    (sign = [] \/ sign = ["-"%char]) /\
    forallb is_digit (d :: ds) = true.
Proof.
  assert (Hu : forall p, exists d ds,
             chars (NilZero.string_of_uint (Pos.to_uint p)) = d :: ds /\
             forallb is_digit (d :: ds) = true).
  { intros p. pose proof (DecimalPos.Unsigned.to_uint_nonnil p) as Hn.
    pose proof (uint_digits (Pos.to_uint p)) as Hd.
    destruct (Pos.to_uint p) eqn:E; try congruence;
      cbn in Hd |- *; eexists; eexists; (split; [reflexivity|exact Hd]). }
  destruct n as [|p|p]; unfold string_of_Z; cbn [Z.to_int NilZero.string_of_int].
  - exists [], "0"%char, []. repeat split; auto.
  - destruct (Hu p) as (d & ds & E & H). exists [], d, ds. repeat split; auto.
  - destruct (Hu p) as (d & ds & E & H). exists ["-"%char], d, ds.
    unfold chars in *. cbn. rewrite E. repeat split; auto.
Qed.

Lemma digit_not_minus d : is_digit d = true -> (d =? "-")%char = false.
Proof. destruct d as [[] [] [] [] [] [] [] []]; cbn; congruence. Qed.

Lemma parse_number_print n rest :
  ends_number rest ->
  parse_number (chars (string_of_Z n) ++ rest) = Some (Int n, rest).
Proof.
  intros Hrest.
  destruct (string_of_Z_shape n) as (sign & d & ds & E & Hsign & Hds).
  assert (Htok : string_of_list_ascii (sign ++ d :: ds) = string_of_Z n).
  { rewrite <- E. apply chars_string. }
  assert (Hd : (d =? "-")%char = false).
  { apply digit_not_minus. cbn in Hds. now apply andb_true_iff in Hds as [-> _]. }
  assert (Hmore : match rest with
                  | c :: _ => (c =? ".")%char || (c =? "e")%char || (c =? "E")%char
                  | [] => false
                  end = false).
  { destruct rest; [reflexivity|]. apply Hrest. }
  rewrite E. unfold parse_number.
  destruct Hsign as [-> | ->]; cbn [Datatypes.app].
  - rewrite Hd.
    change (d :: ds ++ rest) with ((d :: ds) ++ rest).
    rewrite (span_digits_app (d :: ds) rest Hds Hrest), Hmore.
    cbn [Datatypes.app] in Htok |- *. rewrite Htok.
    rewrite string_of_Z_not_minus_zero, int_of_string_of_Z, DecimalZ.of_to.
    now rewrite String.eqb_refl.
  - cbn [Ascii.eqb Bool.eqb].
    change (d :: ds ++ rest) with ((d :: ds) ++ rest).
    rewrite (span_digits_app (d :: ds) rest Hds Hrest), Hmore.
    rewrite Htok.
    rewrite string_of_Z_not_minus_zero, int_of_string_of_Z, DecimalZ.of_to.
    now rewrite String.eqb_refl.
Qed.

(** *** Values *)

Lemma skip_ws_head c r : is_ws c = false -> skip_ws (c :: r) = c :: r.
Proof. intros H. cbn [skip_ws]. now rewrite H. Qed.

(** The first character of a number selects the number branch. *)
Lemma number_head c :
  is_digit c = true \/ c = "-"%char ->
  is_ws c = false /\ (c =? "n")%char = false /\ (c =? "t")%char = false /\
  (c =? "f")%char = false /\ (c =? dquote)%char = false /\
  (c =? "[")%char = false /\ (c =? "{")%char = false /\
  (c =? "]")%char = false /\ (c =? "}")%char = false.
Proof.
  intros [H | ->]; [|repeat split; reflexivity].
  destruct c as [[] [] [] [] [] [] [] []]; cbn in H; try discriminate H;
    repeat split; reflexivity.
Qed.

Lemma string_of_Z_head n :
  exists c r, chars (string_of_Z n) = c :: r /\ (is_digit c = true \/ c = "-"%char).
Proof.
  destruct (string_of_Z_shape n) as (sign & d & ds & E & [-> | ->] & Hds);
    rewrite E; cbn [Datatypes.app]; eexists; eexists; (split; [reflexivity|]).
  - left. cbn in Hds. now apply andb_true_iff in Hds as [-> _].
  - now right.
Qed.

(** A serialised value starts with a character that is neither white
    space nor a closing bracket. *)
Lemma print_head v :
  exists c r, print v = c :: r /\ is_ws c = false /\
              (c =? "]")%char = false /\ (c =? "}")%char = false.
Proof.
  destruct v as [|[]|[n| |b]|s|l|m]; cbn [print print_number];
    try (eexists; eexists; split; [reflexivity|]; repeat split; reflexivity).
  destruct (string_of_Z_head n) as (c & r & E & H).
  exists c, r. split; [exact E|]. apply number_head in H. tauto.
Qed.

Lemma parse_value_number f c r :
  is_digit c = true \/ c = "-"%char ->
  parse_value (S f) (c :: r) =
  match parse_number (c :: r) with
  | Some (x, rest) => Some (JNum x, rest)
  | None => None
  end.
Proof.
  intros H. apply number_head in H.
  destruct H as (H0 & H1 & H2 & H3 & H4 & H5 & H6 & _).
  cbn [parse_value]. rewrite (skip_ws_head c r H0), H1, H2, H3, H4, H5, H6.
  reflexivity.
Qed.

Lemma ends_number_close rest : ends_number ("]"%char :: rest).
Proof. cbn. auto. Qed.

Lemma parse_elements_print l :
  Forall parses_back l -> l <> [] ->
  forall fuel rest,
    (size_elements l < fuel)%nat ->
    parse_elements fuel (join_commas (map print l) ++ "]"%char :: rest)
    = Some (map reread l, rest).
Proof.
  induction 1 as [|v l Hv Hl IH]; [congruence|]. intros _ fuel rest Hfuel.
  destruct fuel as [|f]; [lia|]. cbn [size_elements fold_right] in Hfuel.
  fold (size_elements l) in Hfuel.
  destruct l as [|w l].
  - cbn [map join_commas parse_elements].
    rewrite (Hv f ("]"%char :: rest)); [reflexivity | lia | apply ends_number_close].
  - change (join_commas (map print (v :: w :: l)))
      with (print v ++ ","%char :: join_commas (map print (w :: l))).
    rewrite <- app_assoc. cbn [parse_elements Datatypes.app].
    rewrite (Hv f); [| lia | cbn; auto].
    cbn [skip_ws is_ws Ascii.eqb Bool.eqb orb].
    rewrite IH; [reflexivity | congruence | lia].
Qed.

Lemma print_member_app k v tl :
  print_member (k, v) ++ tl =
  dquote :: flat_map escape_char (chars k) ++ dquote :: ":"%char :: print v ++ tl.
Proof.
  unfold print_member, quote. cbn [fst snd Datatypes.app].
  now rewrite <- !app_assoc.
Qed.

Lemma parse_member_step f k v tl :
  parses_back v -> (size v < f)%nat -> ends_number tl ->
  exists r0,
    print_member (k, v) ++ tl = dquote :: r0 /\
    parse_chars r0 = Some (chars k, ":"%char :: print v ++ tl) /\
    parse_value f (print v ++ tl) = Some (reread v, tl).
Proof.
  intros Hv Hf Htl. rewrite print_member_app. eexists. split; [reflexivity|].
  split; [apply parse_chars_escaped | now apply Hv].
Qed.

Lemma parse_members_S f r0 ks tl v r3 :
  parse_chars r0 = Some (ks, ":"%char :: tl) ->
  parse_value f tl = Some (v, r3) ->
  parse_members (S f) (dquote :: r0) =
  match skip_ws r3 with
  | c :: r4 =>
      if (c =? ",")%char then
        match parse_members f r4 with
        | Some (m, rest) => Some ((string_of_list_ascii ks, v) :: m, rest)
        | None => None
        end
      else if (c =? "}")%char then Some ([(string_of_list_ascii ks, v)], r4)
      else None
  | [] => None
  end.
Proof.
  intros Hk Hv. cbn. rewrite Hk. cbn. rewrite Hv. reflexivity.
Qed.

Lemma parse_members_print m :
  Forall (fun kv => parses_back (snd kv)) m -> m <> [] ->
  forall fuel rest,
    (size_members m < fuel)%nat ->
    parse_members fuel (join_commas (map print_member m) ++ "}"%char :: rest)
    = Some (map (fun kv => (fst kv, reread (snd kv))) m, rest).
Proof.
  induction 1 as [|[k v] m Hv Hm IH]; [congruence|]. intros _ fuel rest Hfuel.
  destruct fuel as [|f]; [lia|]. cbn [size_members fold_right snd] in Hfuel, Hv.
  fold (size_members m) in Hfuel.
  destruct m as [|w m].
  - cbn [map join_commas].
    destruct (parse_member_step f k v ("}"%char :: rest) Hv) as (r0 & -> & Hk & Hval);
      [lia | cbn; auto |].
    rewrite (parse_members_S f r0 _ _ _ _ Hk Hval).
    cbn. now rewrite chars_string.
  - change (join_commas (map print_member ((k, v) :: w :: m)))
      with (print_member (k, v) ++ ","%char :: join_commas (map print_member (w :: m))).
    rewrite <- app_assoc. cbn [Datatypes.app].
    destruct (parse_member_step f k v
                (","%char :: join_commas (map print_member (w :: m)) ++ "}"%char :: rest) Hv)
      as (r0 & -> & Hk & Hval); [lia | cbn; auto |].
    rewrite (parse_members_S f r0 _ _ _ _ Hk Hval).
    cbn [skip_ws is_ws Ascii.eqb Bool.eqb orb].
    rewrite IH; [now rewrite chars_string | congruence | lia].
Qed.

Lemma parse_value_array_S f c r :
  is_ws c = false -> (c =? "]")%char = false ->
  parse_value (S f) ("["%char :: c :: r) =
  match parse_elements f (c :: r) with
  | Some (l, rest) => Some (JArr l, rest)
  | None => None
  end.
Proof. intros Hws Hc. cbn. now rewrite Hws, Hc. Qed.

Lemma parse_value_object_S f r :
  parse_value (S f) ("{"%char :: dquote :: r) =
  match parse_members f (dquote :: r) with
  | Some (m, rest) => Some (JObj m, rest)
  | None => None
  end.
Proof. reflexivity. Qed.

Lemma join_elements_head v l tl :
  exists c r, join_commas (map print (v :: l)) ++ tl = c :: r /\
              is_ws c = false /\ (c =? "]")%char = false.
Proof.
  destruct (print_head v) as (c & r & E & Hws & Hc & _).
  destruct l as [|w l].
  - cbn [map join_commas]. rewrite E. exists c, (r ++ tl). auto.
  - change (join_commas (map print (v :: w :: l)))
      with (print v ++ ","%char :: join_commas (map print (w :: l))).
    rewrite E. eexists c, _. cbn [Datatypes.app]. auto.
Qed.

Lemma join_members_head kv m tl :
  exists r, join_commas (map print_member (kv :: m)) ++ tl = dquote :: r.
Proof.
  destruct m as [|w m].
  - cbn [map join_commas]. unfold print_member, quote. cbn [Datatypes.app]. eauto.
  - change (join_commas (map print_member (kv :: w :: m)))
      with (print_member kv ++ ","%char :: join_commas (map print_member (w :: m))).
    unfold print_member at 1, quote. cbn [Datatypes.app]. eauto.
Qed.

Theorem print_parses_back v : parses_back v.
Proof.
  induction v as [| b | x | s | l IH | m IH] using json_nested_ind;
    intros fuel rest Hfuel Hrest; (destruct fuel as [|f]; [cbn in Hfuel; lia|]).
  - reflexivity.
  - destruct b; reflexivity.
  - assert (Hint : forall n,
               parse_value (S f) (chars (string_of_Z n) ++ rest) = Some (JNum n, rest)).
    { intros n. destruct (string_of_Z_head n) as (c & r & E & Hc).
      pose proof (parse_number_print n rest Hrest) as Hn.
      rewrite E in Hn |- *. cbn [Datatypes.app] in Hn |- *.
      now rewrite (parse_value_number f c _ Hc), Hn. }
    destruct x as [n| |negative]; cbn [print print_number reread reread_number].
    + apply Hint.
    + apply (Hint 0).
    + reflexivity.
  - cbn [print]. destruct (parse_chars_quote s rest) as (body & -> & Hbody).
    cbn. rewrite Hbody. now rewrite chars_string.
  - cbn [print Datatypes.app]. rewrite <- app_assoc. cbn [Datatypes.app].
    destruct l as [|v l]; [reflexivity|].
    pose proof (parse_elements_print (v :: l) IH ltac:(congruence) f rest) as Hl.
    destruct (join_elements_head v l ("]"%char :: rest)) as (c & r & E & Hws & Hc).
    rewrite E in Hl |- *.
    rewrite (parse_value_array_S f c r Hws Hc), Hl; [reflexivity|].
    cbn [size] in Hfuel. fold (size_elements (v :: l)) in Hfuel. lia.
  - cbn [print Datatypes.app]. rewrite <- app_assoc. cbn [Datatypes.app].
    destruct m as [|kv m]; [reflexivity|].
    change (map (fun kv0 => quote (fst kv0) ++ ":"%char :: print (snd kv0)) (kv :: m))
      with (map print_member (kv :: m)).
    pose proof (parse_members_print (kv :: m) IH ltac:(congruence) f rest) as Hm.
    destruct (join_members_head kv m ("}"%char :: rest)) as (r & E).
    rewrite E in Hm |- *.
    rewrite (parse_value_object_S f r), Hm; [reflexivity|].
    cbn [size] in Hfuel. fold (size_members (kv :: m)) in Hfuel. lia.
Qed.

(** *** Enough fuel: a value is no larger than its text *)

Lemma size_elements_le l :
  Forall (fun v => (size v <= List.length (print v))%nat) l ->
  (size_elements l <= S (List.length (join_commas (map print l))))%nat.
Proof.
  induction 1 as [|v l Hv Hl IH]; [cbn; lia|].
  cbn [size_elements fold_right]. fold (size_elements l).
  destruct l as [|w l].
  - cbn. lia.
  - change (join_commas (map print (v :: w :: l)))
      with (print v ++ ","%char :: join_commas (map print (w :: l))).
    rewrite length_app. cbn [List.length]. lia.
Qed.

Lemma size_members_le m :
  Forall (fun kv => (size (snd kv) <= List.length (print (snd kv)))%nat) m ->
  (size_members m <= S (List.length (join_commas (map print_member m))))%nat.
Proof.
  induction 1 as [|kv m Hv Hm IH]; [cbn; lia|].
  cbn [size_members fold_right]. fold (size_members m).
  assert (Hkv : (size (snd kv) <= List.length (print_member kv))%nat).
  { unfold print_member. rewrite length_app. cbn [List.length]. lia. }
  destruct m as [|w m].
  - cbn [map join_commas size_members fold_right]. lia.
  - change (join_commas (map print_member (kv :: w :: m)))
      with (print_member kv ++ ","%char :: join_commas (map print_member (w :: m))).
    rewrite length_app. cbn [List.length]. lia.
Qed.

Lemma size_le_length v : (size v <= List.length (print v))%nat.
Proof.
  induction v as [| b | x | s | l IH | m IH] using json_nested_ind.
  - cbn. lia.
  - destruct b; cbn; lia.
  - destruct x as [n| |negative]; cbn [print print_number size]; [|cbn; lia..].
    destruct (string_of_Z_head n) as (c & r & -> & _). cbn. lia.
  - cbn. lia.
  - cbn [print size]. fold (size_elements l). pose proof (size_elements_le l IH).
    cbn [List.length]. rewrite length_app. cbn [List.length]. lia.
  - cbn [print size]. fold (size_members m). pose proof (size_members_le m IH).
    change (map (fun kv => quote (fst kv) ++ ":"%char :: print (snd kv)) m)
      with (map print_member m).
    cbn [List.length]. rewrite length_app. cbn [List.length]. lia.
Qed.

(** [JSON.parse(JSON.stringify(v))] is the value that the text of [v]
    denotes. *)
Theorem parse_stringify v : parse (stringify v) = Some (reread v).
Proof.
  unfold parse, stringify, chars.
  rewrite list_ascii_of_string_of_list_ascii.
  pose proof (print_parses_back v (S (List.length (print v))) []) as H.
  rewrite app_nil_r in H. rewrite H; [reflexivity | | exact I].
  pose proof (size_le_length v). lia.
Qed.

(** A value without an infinity and without negative zero is the value
    that its text denotes. *)
Lemma reread_plain v : plain v = true -> reread v = v.
Proof.
  induction v as [| b | x | s | l IH | m IH] using json_nested_ind;
    cbn [plain reread]; intros Hp; try reflexivity.
  - destruct x; [reflexivity | discriminate Hp | discriminate Hp].
  - f_equal. induction IH as [|v l Hv _ IHl]; [reflexivity|].
    cbn [forallb map] in *. apply andb_true_iff in Hp as [Hv' Hl'].
    now rewrite (Hv Hv'), (IHl Hl').
  - f_equal. induction IH as [|[k v] m Hv _ IHm]; [reflexivity|].
    cbn [forallb map fst snd] in *. apply andb_true_iff in Hp as [Hv' Hm'].
    now rewrite (Hv Hv'), (IHm Hm').
Qed.

(** [JSON.parse(JSON.stringify(v))] is [v] when [v] is plain. *)
Lemma parse_stringify_plain v : plain v = true -> parse (stringify v) = Some v.
Proof. intros Hp. now rewrite parse_stringify, (reread_plain v Hp). Qed.

(** The text of a value is the text of the value it denotes. *)
Lemma print_reread v : print (reread v) = print v.
Proof.
  induction v as [| b | x | s | l IH | m IH] using json_nested_ind;
    cbn [reread]; try reflexivity.
  - destruct x; reflexivity.
  - cbn [print]. do 3 f_equal. rewrite map_map.
    induction IH as [|v l Hv _ IHl]; [reflexivity|]. cbn [map]. now rewrite Hv, IHl.
  - cbn [print]. do 3 f_equal. rewrite map_map.
    induction IH as [|[k v] m Hv _ IHm]; [reflexivity|].
    cbn [map fst snd] in *. now rewrite Hv, IHm.
Qed.

Lemma stringify_reread v : stringify (reread v) = stringify v.
Proof. unfold stringify. now rewrite print_reread. Qed.

(** Truthiness survives the round trip for arrays, objects, strings and
    booleans; a number may lose it (an infinity becomes [null]). *)
Lemma reread_array v l : reread v = JArr l -> exists l0, v = JArr l0 /\ l = map reread l0.
Proof.
  destruct v as [| b | [n| |negative] | s | l0 | m]; cbn [reread reread_number];
    try discriminate.
  intros [= <-]. now exists l0.
Qed.

End JSONFacts.

(* ================================================================= *)
(** ** Facts about the store *)

Module SqlFacts.

(** *** The order on texts *)

Lemma ascii_compare_code a b : Ascii.compare a b = (code a ?= code b)%N.
Proof. reflexivity. Qed.

Lemma string_leb_trans a b c :
  (a <=? b)%string = true -> (b <=? c)%string = true -> (a <=? c)%string = true.
Proof.
  unfold String.leb. revert b c.
  induction a as [|x a IH]; intros [|y b] [|z c]; cbn [String.compare];
    try congruence.
  rewrite !ascii_compare_code.
  destruct (N.compare_spec (code x) (code y)) as [Exy|Lxy|Gxy];
    destruct (N.compare_spec (code y) (code z)) as [Eyz|Lyz|Gyz];
    destruct (N.compare_spec (code x) (code z)) as [Exz|Lxz|Gxz];
    try congruence; try lia.
  apply IH.
Qed.

Lemma string_leb_false a b : (a <=? b)%string = false -> (b <=? a)%string = true.
Proof.
  intros H. destruct (String.leb_total a b) as [H1|H1]; congruence.
Qed.

(** *** ORDER BY *)

Section OrderBy.
Context {row : Type} (key : row -> string).

Lemma insert_desc_perm x l : Permutation (insert_desc key x l) (x :: l).
Proof.
  induction l as [|y l IH]; cbn [insert_desc]; [reflexivity|].
  destruct (key y <=? key x)%string; [reflexivity|].
  rewrite IH. apply perm_swap.
Qed.

Lemma order_by_desc_perm l : Permutation (order_by_desc key l) l.
Proof.
  induction l as [|x l IH]; cbn [order_by_desc fold_right]; [reflexivity|].
  fold (order_by_desc key l). rewrite insert_desc_perm. now constructor.
Qed.

Lemma insert_desc_sorted x l : descending key l -> descending key (insert_desc key x l).
Proof.
  unfold descending.
  induction 1 as [|y l Hl IH Hy]; cbn [insert_desc].
  - repeat constructor.
  - destruct (key y <=? key x)%string eqn:E.
    + constructor; [now constructor|]. constructor; [exact E|].
      eapply Forall_impl; [|exact Hy]. cbn. intros z Hz.
      eapply string_leb_trans; eauto.
    + constructor; [exact IH|].
      eapply Permutation_Forall; [symmetry; apply insert_desc_perm|].
      constructor; [now apply string_leb_false | exact Hy].
Qed.

Lemma order_by_desc_sorted l : descending key (order_by_desc key l).
Proof.
  induction l as [|x l IH]; cbn [order_by_desc fold_right]; [constructor|].
  now apply insert_desc_sorted.
Qed.

Lemma order_by_desc_in l x : In x (order_by_desc key l) <-> In x l.
Proof.
  split; apply Permutation_in;
    [apply order_by_desc_perm | symmetry; apply order_by_desc_perm].
Qed.

Lemma order_by_desc_length l : List.length (order_by_desc key l) = List.length l.
Proof. apply Permutation_length, order_by_desc_perm. Qed.
End OrderBy.

End SqlFacts.
Import SqlFacts.

(* ================================================================= *)
(** ** Facts about the handlers *)

Module ServerFacts.

(** *** Binding *)

Lemma text_column_string s : text_column (bind_param (Some (JStr s))) = Some s.
Proof. reflexivity. Qed.

(** A truthy parameter never violates the NOT NULL of a TEXT column. *)
Lemma text_column_truthy v :
  truthy v = true -> exists s, text_column (bind_param v) = Some s.
Proof.
  destruct v as [[| b | [n| |negative] | s | l | m]|]; cbn; try discriminate; eauto.
Qed.

Lemma js_or_truthy a b : truthy a = true -> Some (js_or a b) = a.
Proof. destruct a as [v|]; cbn [js_or]; [intros ->; reflexivity | discriminate]. Qed.

Lemma js_or_falsy a b : truthy a = false -> js_or a b = b.
Proof. destruct a as [v|]; cbn [js_or]; [intros ->; reflexivity | reflexivity]. Qed.

Lemma js_or_defined a s : truthy (Some (js_or a (JStr s))) = true \/ js_or a (JStr s) = JStr s.
Proof.
  destruct (truthy a) eqn:E.
  - left. now rewrite (js_or_truthy a _ E).
  - right. now apply js_or_falsy.
Qed.

Lemma text_column_js_or a s :
  exists t, text_column (bind_param (Some (js_or a (JStr s)))) = Some t.
Proof.
  destruct (js_or_defined a s) as [H | ->];
    [now apply text_column_truthy | exists s; reflexivity].
Qed.

Lemma integer_column_nat (n : Z) :
  integer_column (bind_param (Some (JNum n))) = Some (SqlInt n).
Proof. reflexivity. Qed.

(** *** The validation of the two create handlers *)

Lemma guest_guard body :
  js_not (prop body "name") || js_not (prop body "email")
  || js_not (prop body "galleryName") || js_not (prop body "galleryId")
  = negb (guest_fields_present body).
Proof.
  unfold guest_fields_present, js_not.
  destruct (truthy (prop body "name")), (truthy (prop body "email")),
    (truthy (prop body "galleryName")), (truthy (prop body "galleryId")); reflexivity.
Qed.

Lemma order_guard body :
  js_not (prop body "name") || js_not (prop body "email")
  || js_not (prop body "galleryName") || js_not (prop body "galleryId")
  || js_not (prop body "photos")
  = negb (order_fields_present body).
Proof.
  unfold order_fields_present. rewrite guest_guard. unfold js_not.
  destruct (guest_fields_present body), (truthy (prop body "photos")); reflexivity.
Qed.

Lemma post_guest_rejected e body s :
  guest_fields_present body = false -> post_guest e body s = (missing_fields, s).
Proof. intros H. unfold post_guest. now rewrite guest_guard, H. Qed.

Lemma post_order_rejected e body s :
  order_fields_present body = false -> post_order e body s = (missing_fields, s).
Proof. intros H. unfold post_order. now rewrite order_guard, H. Qed.

Lemma post_guest_accepted e body s :
  guest_fields_present body = true -> db_fails e 0 = false ->
  exists g,
    guest_row e body (next_id (guests s)) g /\
    post_guest e body s =
      (ok [("success"%string, JBool true);
           ("id"%string, JNum (next_id (guests s)));
           ("message"%string, JStr "Guest info saved successfully")],
       mkStore (insert_row g (guests s)) (orders s)).
Proof.
  intros Hp Hdb. unfold post_guest. rewrite guest_guard, Hp, Hdb. cbn [negb].
  unfold guest_fields_present in Hp.
  apply andb_true_iff in Hp as [Hp H4]. apply andb_true_iff in Hp as [Hp H3].
  apply andb_true_iff in Hp as [H1 H2].
  destruct (text_column_truthy _ H1) as (n & En).
  destruct (text_column_truthy _ H2) as (em & Eem).
  destruct (text_column_truthy _ H3) as (gn & Egn).
  destruct (text_column_truthy _ H4) as (gi & Egi).
  destruct (text_column_js_or (prop body "visitDate") (now_iso e)) as (vd & Evd).
  unfold insert_guest. rewrite En, Eem, Egn, Egi, Evd.
  eexists. split; [|reflexivity]. unfold guest_row. cbn. auto 10.
Qed.

Lemma post_order_accepted e body s photos :
  order_fields_present body = true -> prop body "photos" = Some photos ->
  db_fails e 0 = false ->
  integer_column (bind_param (js_length photos)) <> None ->
  exists o,
    order_row e body (next_id (orders s)) photos o /\
    post_order e body s =
      (ok [("success"%string, JBool true);
           ("id"%string, JNum (next_id (orders s)));
           ("message"%string, JStr "Order submitted successfully")],
       mkStore (guests s) (insert_row o (orders s))).
Proof.
  intros Hp Hph Hdb Hlen. unfold post_order.
  rewrite order_guard, Hp, Hph, Hdb. cbn [negb].
  unfold order_fields_present, guest_fields_present in Hp.
  apply andb_true_iff in Hp as [Hp H5]. apply andb_true_iff in Hp as [Hp H4].
  apply andb_true_iff in Hp as [Hp H3]. apply andb_true_iff in Hp as [H1 H2].
  destruct (text_column_truthy _ H1) as (n & En).
  destruct (text_column_truthy _ H2) as (em & Eem).
  destruct (text_column_truthy _ H3) as (gn & Egn).
  destruct (text_column_truthy _ H4) as (gi & Egi).
  destruct (text_column_js_or (prop body "submittedAt") (now_iso e)) as (sa & Esa).
  destruct (integer_column (bind_param (js_length photos))) as [pc|] eqn:Epc;
    [|congruence].
  unfold insert_order. rewrite En, Eem, Egn, Egi, Epc, Esa, text_column_string.
  eexists. split; [|reflexivity]. unfold order_row. cbn. auto 10.
Qed.

(** Whatever the request, an order handler leaves the store alone or
    appends one row of the request. *)
Lemma post_order_store e body s :
  snd (post_order e body s) = s \/
  exists photos o,
    truthy (Some photos) = true /\ prop body "photos" = Some photos /\
    order_row e body (next_id (orders s)) photos o /\
    snd (post_order e body s) = mkStore (guests s) (insert_row o (orders s)).
Proof.
  destruct (order_fields_present body) eqn:Hp;
    [|left; now rewrite post_order_rejected].
  destruct (prop body "photos") as [photos|] eqn:Hph;
    [|unfold order_fields_present in Hp; rewrite Hph in Hp; cbn in Hp;
      rewrite andb_false_r in Hp; discriminate].
  destruct (db_fails e 0) eqn:Hdb.
  { left. unfold post_order. now rewrite order_guard, Hp, Hph, Hdb. }
  destruct (integer_column (bind_param (js_length photos))) as [pc|] eqn:Epc.
  - right. destruct (post_order_accepted e body s photos Hp Hph Hdb) as (o & Ho & E);
      [congruence|].
    exists photos, o. rewrite E.
    split; [|split; [reflexivity|split; [exact Ho|reflexivity]]].
    unfold order_fields_present in Hp. rewrite Hph in Hp.
    now apply andb_true_iff in Hp as [_ ->].
  - left. unfold post_order. rewrite order_guard, Hp, Hph, Hdb. cbn [negb].
    unfold insert_order. rewrite Epc.
    destruct (text_column (bind_param (prop body "name"))),
      (text_column (bind_param (prop body "email"))),
      (text_column (bind_param (prop body "galleryName"))),
      (text_column (bind_param (prop body "galleryId"))); reflexivity.
Qed.

Lemma post_guest_store e body s :
  snd (post_guest e body s) = s \/
  exists g,
    guest_row e body (next_id (guests s)) g /\
    snd (post_guest e body s) = mkStore (insert_row g (guests s)) (orders s).
Proof.
  destruct (guest_fields_present body) eqn:Hp;
    [|left; now rewrite post_guest_rejected].
  destruct (db_fails e 0) eqn:Hdb.
  { left. unfold post_guest. now rewrite guest_guard, Hp, Hdb. }
  right. destruct (post_guest_accepted e body s Hp Hdb) as (g & Hg & E).
  exists g. now rewrite E.
Qed.

(** *** What one request does to the store *)

Lemma filter_none {A : Type} (l : list A) : filter (fun _ => false) l = [].
Proof. induction l; auto. Qed.

Lemma handle_step e r s : store_step s (snd (handle e r s)).
Proof.
  destruct r as [| body | body | | | gid | id | id | | | | |]; cbn [handle].
  - constructor.
  - destruct (post_guest_store e body s) as [-> | (g & Hg & ->)];
      [constructor | apply step_new_guest, Hg].
  - destruct (post_order_store e body s) as [-> | (ph & o & Ht & _ & Ho & ->)];
      [constructor|].
    destruct Ho as (Hid & _ & _ & _ & _ & Hpc & Hph & _).
    now apply step_new_order with ph.
  - unfold get_guests. destruct (db_fails e 0); constructor.
  - unfold get_orders. destruct (db_fails e 0); constructor.
  - unfold get_orders_by_gallery. destruct (db_fails e 0); constructor.
  - unfold delete_guest. destruct (db_fails e 0); [constructor|].
    cbn. apply step_delete_guests.
  - unfold delete_order. destruct (db_fails e 0); [constructor|].
    cbn. apply step_delete_orders.
  - unfold delete_guests. destruct (db_fails e 0); [constructor|].
    cbn. rewrite <- (filter_none (rows (guests s))). apply step_delete_guests.
  - unfold delete_orders. destruct (db_fails e 0); [constructor|].
    cbn. rewrite <- (filter_none (rows (orders s))). apply step_delete_orders.
  - unfold export_guests. destruct (db_fails e 0); constructor.
  - unfold export_orders. destruct (db_fails e 0); constructor.
  - unfold get_stats.
    destruct (db_fails e 0), (db_fails e 1), (db_fails e 2); constructor.
Qed.

(** *** The invariant of the store *)

Lemma Forall_filter {A : Type} (P : A -> Prop) keep (l : list A) :
  Forall P l -> Forall P (filter keep l).
Proof.
  intros H. apply Forall_forall. intros x Hx. apply filter_In in Hx as [Hx _].
  revert x Hx. now apply Forall_forall.
Qed.

Lemma store_step_ok s s' : store_step s s' -> store_ok s -> store_ok s'.
Proof.
  intros Hstep [Hg Ho].
  destruct Hstep as [| g Hid | o ph Ht Hid Hph Hpc | keep | keep];
    split; cbn [guests orders rows seq insert_row]; auto using Forall_filter.
  - apply Forall_app. split.
    + eapply Forall_impl; [|exact Hg]. unfold insert_row, next_id. cbn [seq].
      intros; lia.
    + constructor; [|constructor]. unfold insert_row, next_id in *. cbn [seq]. lia.
  - apply Forall_app. split.
    + eapply Forall_impl; [|exact Ho]. unfold stored_order.
      intros a [Ha Hrest]. split; [|exact Hrest].
      unfold insert_row, next_id. cbn [seq]. lia.
    + constructor; [|constructor]. split; [|now exists ph].
      unfold insert_row, next_id in *. cbn [seq]. lia.
Qed.

Lemma reachable_ok s : reachable s -> store_ok s.
Proof.
  induction 1 as [|e r s Hs IH].
  - split; constructor.
  - eapply store_step_ok; [apply handle_step | exact IH].
Qed.

(** *** Reading orders back *)


Lemma order_view_photos o : prop (order_view o) "photos" = Some (photos_value o).
Proof. reflexivity. Qed.

Lemma order_view_photo_count o :
  prop (order_view o) "photo_count" = Some (js_of_sql (o_photo_count o)).
Proof. reflexivity. Qed.

Lemma order_view_gallery_id o :
  prop (order_view o) "gallery_id" = Some (JStr (o_gallery_id o)).
Proof. reflexivity. Qed.

Lemma order_view_created_at o :
  prop (order_view o) "created_at" = Some (JStr (o_created_at o)).
Proof. reflexivity. Qed.

Lemma stored_order_parses t o :
  stored_order t o -> exists photos, parse (o_photos o) = Some photos.
Proof.
  intros (_ & ph & _ & -> & _). exists (reread ph). apply JSONFacts.parse_stringify.
Qed.

(** A value that was stored is an array, a string or an object: what
    its text denotes is truthy as well, and is an array of the same
    length when the value is one. *)
Lemma stored_truthy_reread ph pc :
  truthy (Some ph) = true ->
  integer_column (bind_param (js_length ph)) = Some pc ->
  truthy (Some (reread ph)) = true.
Proof.
  intros Ht Hpc.
  destruct ph as [| b | x | s | l | m]; cbn in Hpc; try discriminate Hpc;
    try reflexivity; exact Ht.
Qed.

Lemma stored_array_reread ph pc l :
  integer_column (bind_param (js_length ph)) = Some pc ->
  reread ph = JArr l -> pc = SqlInt (Z.of_nat (List.length l)).
Proof.
  intros Hpc Hl. apply JSONFacts.reread_array in Hl as (l0 & -> & ->).
  cbn in Hpc. rewrite length_map. congruence.
Qed.

Lemma map_throwing_views l :
  Forall (fun o => exists photos, parse (o_photos o) = Some photos) l ->
  map_throwing parse_photos l = Some (map order_view l).
Proof.
  induction 1 as [|o l (ph & Hph) Hl IH]; [reflexivity|].
  cbn [map_throwing map]. rewrite IH.
  unfold parse_photos, order_view, photos_value. now rewrite Hph.
Qed.

Lemma orders_response_views l :
  Forall (fun o => exists photos, parse (o_photos o) = Some photos) l ->
  orders_response l =
  ok [("success"%string, JBool true); ("orders"%string, JArr (map order_view l))].
Proof. intros H. unfold orders_response. now rewrite map_throwing_views. Qed.

Lemma store_ok_parses s :
  store_ok s ->
  Forall (fun o => exists photos, parse (o_photos o) = Some photos) (rows (orders s)).
Proof.
  intros [_ Ho]. eapply Forall_impl; [|exact Ho].
  intros o. apply stored_order_parses.
Qed.

Lemma Forall_perm_in {A : Type} (P : A -> Prop) (l l' : list A) :
  (forall x, In x l' -> In x l) -> Forall P l -> Forall P l'.
Proof.
  intros Hin H. apply Forall_forall. intros x Hx.
  now apply (proj1 (Forall_forall P l) H), Hin.
Qed.

(** A list handler answers with the views of the selected rows. *)
Lemma get_orders_views e s :
  store_ok s -> db_fails e 0 = false ->
  get_orders e s =
  (ok [("success"%string, JBool true);
       ("orders"%string, JArr (map order_view (select_orders (orders s))))], s).
Proof.
  intros Hok Hdb. unfold get_orders. rewrite Hdb, orders_response_views; [reflexivity|].
  eapply Forall_perm_in; [|apply store_ok_parses, Hok].
  intros x. apply order_by_desc_in.
Qed.

Lemma get_orders_by_gallery_views e gid s :
  store_ok s -> db_fails e 0 = false ->
  get_orders_by_gallery e gid s =
  (ok [("success"%string, JBool true);
       ("orders"%string,
        JArr (map order_view (select_orders_where_gallery (SqlText gid) (orders s))))], s).
Proof.
  intros Hok Hdb. unfold get_orders_by_gallery.
  rewrite Hdb, orders_response_views; [reflexivity|].
  eapply Forall_perm_in; [|apply store_ok_parses, Hok].
  intros x Hx. unfold select_orders_where_gallery in Hx.
  apply order_by_desc_in, filter_In in Hx. tauto.
Qed.

End ServerFacts.
Import ServerFacts.

(* ================================================================= *)
(** ** The properties of the specification *)

Example post_guest_ann :
  post_guest calm ann_guest init_store =
  (ok [("success"%string, JBool true); ("id"%string, JNum 1);
       ("message"%string, JStr "Guest info saved successfully")],
   mkStore
     (mkTable [mkGuest 1 "Ann" "a@x.com" "Spring" "g1"
                 "2024-05-01T10:00:00.000Z" "2024-05-01 10:00:00"] 1)
     empty_table).
Proof. reflexivity. Qed.

(** *** Orders: [photo_count] and the round trip of [photos] *)




Example infinite_photo_order :
  fst (get_orders calm
         (snd (post_order calm (ann_order (JArr [JNum (Infinity false); JNum NegZero]))
                 init_store))) =
  ok [("success"%string, JBool true);
      ("orders"%string,
       JArr [JObj [("id"%string, JNum 1);
                   ("name"%string, JStr "Ann");
                   ("email"%string, JStr "a@x.com");
                   ("gallery_name"%string, JStr "Spring");
                   ("gallery_id"%string, JStr "g1");
                   ("photo_count"%string, JNum 2);
                   ("photos"%string, JArr [JNull; JNum 0]);
                   ("submitted_at"%string, JStr "2024-05-01T10:00:00.000Z");
                   ("created_at"%string, JStr "2024-05-01 10:00:00")]])].
Proof. vm_compute. reflexivity. Qed.



(** *** Validation of the create requests *)

Lemma guest_required_present body k :
  In k guest_required -> truthy (prop body k) = false ->
  guest_fields_present body = false.
Proof.
  unfold guest_fields_present. intros Hin Hk.
  destruct Hin as [E | [E | [E | [E | []]]]]; subst k; rewrite Hk;
    rewrite ?andb_false_r, ?andb_false_l; reflexivity.
Qed.

Lemma order_required_present body k :
  In k order_required -> truthy (prop body k) = false ->
  order_fields_present body = false.
Proof.
  unfold order_fields_present. intros Hin Hk.
  destruct Hin as [E | [E | [E | [E | [E | []]]]]]; subst k;
    try solve [rewrite (fun Hin => guest_required_present body _ Hin Hk);
               [reflexivity | cbn; auto 6]].
  rewrite Hk. apply andb_false_r.
Qed.

(** C2, as the handlers have it.  A create request one of whose
    required fields is falsy (absent, [null], [false], [0] or the empty
    string) is answered with 400 and an [error] body, and the store,
    hence the row count of either table, is what it was. *)
Theorem create_rejects_falsy_field (e : env) (body : json) (s : store) (k : string) :
  truthy (prop body k) = false ->
  (In k guest_required ->
   post_guest e body s =
     (Json 400 (JObj [("error"%string, JStr "Missing required fields")]), s)) /\
  (In k order_required ->
   post_order e body s =
     (Json 400 (JObj [("error"%string, JStr "Missing required fields")]), s)).
Proof.
  intros Hk. split; intros Hin.
  - apply post_guest_rejected. eapply guest_required_present; eauto.
  - apply post_order_rejected. eapply order_required_present; eauto.
Qed.

Lemma create_rejects_falsy_field_witness :
  post_guest calm no_email init_store =
    (Json 400 (JObj [("error"%string, JStr "Missing required fields")]), init_store) /\
  post_order calm no_email init_store =
    (Json 400 (JObj [("error"%string, JStr "Missing required fields")]), init_store).
Proof.
  destruct (create_rejects_falsy_field calm no_email init_store "email" eq_refl)
    as [Hguest Horder].
  split; [apply Hguest | apply Horder]; cbn; auto.
Defined.

(** C2 as stated fails on an order whose [photos] is the empty list:
    the array is truthy, the request is accepted and a row is written. *)
Lemma empty_photos_not_rejected :
  ~ (forall (e : env) (body : json) (s : store) (k : string),
        In k order_required -> missing_or_empty (prop body k) ->
        fst (post_order e body s) =
          Json 400 (JObj [("error"%string, JStr "Missing required fields")]) /\
        List.length (rows (orders (snd (post_order e body s))))
          = List.length (rows (orders s))).
Proof.
  intros H.
  destruct (H calm (ann_order (JArr [])) init_store "photos"%string) as [Hresp _].
  - cbn. auto 6.
  - right. right. reflexivity.
  - discriminate Hresp.
Qed.

(** *** The photos of the stored orders *)

(** C3 as stated fails: one accepted request with an empty list leaves
    an order whose photos sequence is empty. *)
Lemma empty_photos_order_reachable :
  ~ (forall s : store, reachable s ->
       forall o : order, In o (rows (orders s)) -> photos_value o <> JArr []).
Proof.
  intros H.
  apply (H (snd (handle calm (PostOrder (ann_order (JArr []))) init_store))
           (reach_step _ _ _ reach_init)
           (mkOrder 1 "Ann" "a@x.com" "Spring" "g1" (SqlInt 0) "[]"
              "2024-05-01T10:00:00.000Z" "2024-05-01 10:00:00")).
  - cbn. auto.
  - reflexivity.
Qed.

(** C3, as the handler has it.  In every reachable store every order
    holds the JSON text of a photos value that was truthy when it was
    submitted, an empty list included, and when that value is a list
    [photo_count] is its length. *)
Theorem stored_photos_were_present (s : store) :
  reachable s ->
  forall o, In o (rows (orders s)) ->
    exists photos,
      truthy (Some photos) = true /\
      o_photos o = stringify photos /\
      photos_value o = photos /\
      (forall l, photos = JArr l -> o_photo_count o = SqlInt (Z.of_nat (List.length l))).
Proof.
  intros Hs o Ho. destruct (reachable_ok s Hs) as [_ Hall].
  apply (proj1 (Forall_forall _ _) Hall) in Ho as (_ & ph & Ht & Hph & Hpc).
  exists (reread ph). repeat split.
  - exact (stored_truthy_reread ph _ Ht Hpc).
  - now rewrite JSONFacts.stringify_reread.
  - unfold photos_value. now rewrite Hph, JSONFacts.parse_stringify.
  - intros l Hl. exact (stored_array_reread ph _ l Hpc Hl).
Qed.

Lemma stored_photos_were_present_witness :
  exists photos,
    truthy (Some photos) = true /\
    o_photos empty_order_row = stringify photos /\
    photos_value empty_order_row = photos /\
    (forall l, photos = JArr l ->
               o_photo_count empty_order_row = SqlInt (Z.of_nat (List.length l))).
Proof.
  apply (stored_photos_were_present
           (snd (handle calm (PostOrder (ann_order (JArr []))) init_store))).
  - apply reach_step, reach_init.
  - cbn. auto.
Defined.

(** *** Orders of one gallery *)

Lemma gallery_filter galleryId (l : list order) :
  filter (fun o => gallery_equals (SqlText galleryId) (o_gallery_id o)) l =
  filter (fun o => (o_gallery_id o =? galleryId)%string) l.
Proof. reflexivity. Qed.

Lemma filter_nothing {A : Type} (f : A -> bool) (l : list A) :
  (forall x, In x l -> f x = false) -> filter f l = [].
Proof.
  induction l as [|x l IH]; intros H; [reflexivity|]. cbn [filter].
  rewrite (H x (or_introl eq_refl)). apply IH. intros y Hy. apply H. now right.
Qed.

(** C4.  The orders of a gallery are exactly the stored orders whose
    [gallery_id] is the requested text, listed by descending
    [created_at]; when there is none the answer is an empty list, not
    an error. *)
Theorem list_by_gallery_exact (e : env) (galleryId : string) (s : store) :
  reachable s -> db_fails e 0 = false ->
  exists selected,
    get_orders_by_gallery e galleryId s =
      (ok [("success"%string, JBool true);
           ("orders"%string, JArr (map order_view selected))], s) /\
    Permutation selected
      (filter (fun o => (o_gallery_id o =? galleryId)%string) (rows (orders s))) /\
    descending o_created_at selected /\
    ((forall o, In o (rows (orders s)) -> o_gallery_id o <> galleryId) ->
     selected = []).
Proof.
  intros Hs Hdb.
  exists (select_orders_where_gallery (SqlText galleryId) (orders s)).
  split; [|split; [|split]].
  - apply get_orders_by_gallery_views; [now apply reachable_ok | exact Hdb].
  - unfold select_orders_where_gallery. rewrite gallery_filter.
    apply order_by_desc_perm.
  - apply order_by_desc_sorted.
  - intros Hnone. unfold select_orders_where_gallery.
    rewrite gallery_filter, filter_nothing; [reflexivity|].
    intros o Ho. apply String.eqb_neq. now apply Hnone.
Qed.

Lemma list_by_gallery_exact_witness :
  exists selected,
    get_orders_by_gallery calm "g1" two_galleries =
      (ok [("success"%string, JBool true);
           ("orders"%string, JArr (map order_view selected))], two_galleries) /\
    Permutation selected
      (filter (fun o => (o_gallery_id o =? "g1")%string) (rows (orders two_galleries))) /\
    descending o_created_at selected /\
    ((forall o, In o (rows (orders two_galleries)) -> o_gallery_id o <> "g1"%string) ->
     selected = []).
Proof.
  apply (list_by_gallery_exact calm "g1" two_galleries);
    [apply reach_step, reach_step, reach_init | reflexivity].
Defined.

Example list_by_gallery_sample :
  fst (get_orders_by_gallery calm "g1" two_galleries) =
  ok [("success"%string, JBool true);
      ("orders"%string,
       JArr [JObj [("id"%string, JNum 2); ("name"%string, JStr "Ann");
                   ("email"%string, JStr "a@x.com");
                   ("gallery_name"%string, JStr "Spring");
                   ("gallery_id"%string, JStr "g1");
                   ("photo_count"%string, JNum 1);
                   ("photos"%string, JArr [JStr "p1"]);
                   ("submitted_at"%string, JStr "2024-05-01T10:00:00.000Z");
                   ("created_at"%string, JStr "2024-05-01 10:00:00")]])].
Proof. vm_compute. reflexivity. Qed.

Example list_by_gallery_none :
  fst (get_orders_by_gallery calm "g3" two_galleries) =
  ok [("success"%string, JBool true); ("orders"%string, JArr [])].
Proof. vm_compute. reflexivity. Qed.

(** *** Statistics *)

Lemma no_infinite_integer negative (counts : list Z) :
  existsb (is_infinite negative) (map SqlInt counts) = false.
Proof. induction counts as [|n counts IH]; [reflexivity | exact IH]. Qed.

Lemma sum_of_integers (counts : list Z) :
  fold_right (fun v acc => numeric_of_sql v + acc) 0 (map SqlInt counts) = total counts.
Proof.
  induction counts as [|n counts IH]; [reflexivity|].
  cbn [map fold_right numeric_of_sql total] in *. now rewrite IH.
Qed.

(** [row.count || 0] on a column of integers is their sum. *)
Lemma sum_of_counts (t : table order) (counts : list Z) :
  map o_photo_count (rows t) = map SqlInt counts ->
  js_or (Some (js_of_sql (select_sum_photo_count t))) (JNum 0) = JNum (total counts).
Proof.
  intros H. unfold select_sum_photo_count. rewrite H.
  destruct counts as [|n counts]; [reflexivity|].
  rewrite !no_infinite_integer, sum_of_integers. cbn [map js_of_sql js_or truthy].
  destruct (total (n :: counts) =? 0) eqn:Hz; cbn [negb]; [|reflexivity].
  apply Z.eqb_eq in Hz. now rewrite Hz.
Qed.

(** [row.count || 0] is a number on every table. *)
Lemma sum_is_number (t : table order) :
  exists x, js_or (Some (js_of_sql (select_sum_photo_count t))) (JNum 0) = JNum x.
Proof.
  unfold select_sum_photo_count.
  destruct (map o_photo_count (rows t)) as [|v column]; [now exists (Int 0)|].
  destruct (existsb (is_infinite false) (v :: column)),
    (existsb (is_infinite true) (v :: column)); cbn [js_of_sql js_or truthy];
    try (eexists; reflexivity).
  destruct (negb _); eexists; reflexivity.
Qed.



Example stats_fresh :
  fst (get_stats calm init_store) =
  ok [("success"%string, JBool true);
      ("stats"%string,
       JObj [("totalGuests"%string, JNum 0); ("totalOrders"%string, JNum 0);
             ("totalPhotosOrdered"%string, JNum 0)])].
Proof. reflexivity. Qed.

Example stats_two_orders :
  fst (get_stats calm two_galleries) =
  ok [("success"%string, JBool true);
      ("stats"%string,
       JObj [("totalGuests"%string, JNum 0); ("totalOrders"%string, JNum 2);
             ("totalPhotosOrdered"%string, JNum 3)])].
Proof. vm_compute. reflexivity. Qed.

Example stats_second_query_fails :
  fst (get_stats (mkEnv "" "" (fun k => Nat.eqb k 1)) two_galleries) =
  Json 500 (JObj [("error"%string, JStr "Database error")]).
Proof. reflexivity. Qed.

(** *** Deleting every row *)

(** C6.  Deleting all guests (all orders) empties that table, leaves
    the other table alone and answers with the number of rows removed
    in [deleted]; on an empty table that number is zero and the table
    stays empty. *)
Theorem delete_all_counts (e : env) (s : store) :
  db_fails e 0 = false ->
  (fst (delete_guests e s) =
     ok [("success"%string, JBool true);
         ("message"%string, JStr "All guests cleared");
         ("deleted"%string, JNum (Z.of_nat (List.length (rows (guests s)))))] /\
   rows (guests (snd (delete_guests e s))) = [] /\
   orders (snd (delete_guests e s)) = orders s /\
   (rows (guests s) = [] ->
    delete_guests e s =
      (ok [("success"%string, JBool true);
           ("message"%string, JStr "All guests cleared");
           ("deleted"%string, JNum 0)], s))) /\
  (fst (delete_orders e s) =
     ok [("success"%string, JBool true);
         ("message"%string, JStr "All orders cleared");
         ("deleted"%string, JNum (Z.of_nat (List.length (rows (orders s)))))] /\
   rows (orders (snd (delete_orders e s))) = [] /\
   guests (snd (delete_orders e s)) = guests s /\
   (rows (orders s) = [] ->
    delete_orders e s =
      (ok [("success"%string, JBool true);
           ("message"%string, JStr "All orders cleared");
           ("deleted"%string, JNum 0)], s))).
Proof.
  intros Hdb. unfold delete_guests, delete_orders. rewrite Hdb. cbn.
  destruct s as [[gr gs] [orr os]]. cbn.
  repeat split; try reflexivity; intros ->; reflexivity.
Qed.

Lemma delete_all_counts_witness :
  fst (delete_orders calm two_galleries) =
    ok [("success"%string, JBool true);
        ("message"%string, JStr "All orders cleared");
        ("deleted"%string, JNum 2)] /\
  rows (orders (snd (delete_orders calm two_galleries))) = [] /\
  delete_guests calm two_galleries =
    (ok [("success"%string, JBool true);
         ("message"%string, JStr "All guests cleared");
         ("deleted"%string, JNum 0)], two_galleries).
Proof.
  destruct (delete_all_counts calm two_galleries eq_refl)
    as [(_ & _ & _ & Hempty) (Ho & Hrows & _)].
  split; [exact Ho|]. split; [exact Hrows|].
  apply Hempty. reflexivity.
Defined.

(** *** Deleting one row *)

Lemma filter_everything {A : Type} (f : A -> bool) (l : list A) :
  (forall x, In x l -> f x = true) -> filter f l = l.
Proof.
  induction l as [|x l IH]; intros H; [reflexivity|]. cbn [filter].
  rewrite (H x (or_introl eq_refl)). f_equal. apply IH. intros y Hy. apply H. now right.
Qed.






Example delete_present_id :
  rows (orders (snd (delete_order calm "1" two_galleries))) =
  [mkOrder 2 "Ann" "a@x.com" "Spring" "g1" (SqlInt 1)
     (stringify (JArr [JStr "p1"])) "2024-05-01T10:00:00.000Z" "2024-05-01 10:00:00"].
Proof. vm_compute. reflexivity. Qed.

(** *** The ids of created guests *)

Lemma store_step_guest_seq s s' :
  store_step s s' -> seq (guests s) <= seq (guests s').
Proof.
  intros [| g Hid | o ph _ _ _ _ | keep | keep]; cbn; unfold next_id; lia.
Qed.

Lemma post_guest_id e body s id :
  created_guest_id (PostGuest body, fst (post_guest e body s)) = Some id ->
  id = seq (guests s) + 1 /\ seq (guests (snd (post_guest e body s))) = id.
Proof.
  destruct (guest_fields_present body) eqn:Hp;
    [|rewrite post_guest_rejected by exact Hp; discriminate].
  destruct (db_fails e 0) eqn:Hdb.
  { unfold post_guest. rewrite guest_guard, Hp, Hdb. discriminate. }
  destruct (post_guest_accepted e body s Hp Hdb) as (g & _ & ->).
  cbn. unfold next_id. intros [= <-]. auto.
Qed.

Lemma handle_guest_id e r s id :
  created_guest_id (r, fst (handle e r s)) = Some id ->
  seq (guests s) < id /\ seq (guests (snd (handle e r s))) = id.
Proof.
  destruct r; cbn [created_guest_id]; try discriminate. cbn [handle]. intros H.
  apply post_guest_id in H as [-> H]. split; [lia | exact H].
Qed.

Lemma run_cons e r trace s :
  run ((e, r) :: trace) s =
  ((r, fst (handle e r s)) :: fst (run trace (snd (handle e r s))),
   snd (run trace (snd (handle e r s)))).
Proof.
  cbn [run]. destruct (handle e r s) as [resp s1]. cbn [fst snd].
  now destruct (run trace s1) as [log s2].
Qed.

Lemma guest_ids_above trace s :
  Forall (fun id => seq (guests s) < id) (created_guest_ids (fst (run trace s))) /\
  StronglySorted Z.lt (created_guest_ids (fst (run trace s))).
Proof.
  revert s. induction trace as [|[e r] trace IH]; intros s.
  - split; constructor.
  - rewrite run_cons. cbn [fst created_guest_ids].
    destruct (IH (snd (handle e r s))) as [Habove Hsorted].
    pose proof (store_step_guest_seq _ _ (handle_step e r s)) as Hmono.
    destruct (created_guest_id (r, fst (handle e r s))) as [id|] eqn:Hid.
    + apply handle_guest_id in Hid as [Hlt Hseq]. rewrite Hseq in Habove.
      split.
      * constructor; [exact Hlt|]. eapply Forall_impl; [|exact Habove].
        cbn. intros; lia.
      * constructor; assumption.
    + split; [|exact Hsorted]. eapply Forall_impl; [|exact Habove].
      cbn. intros; lia.
Qed.

Lemma sorted_lt_nodup (l : list Z) : StronglySorted Z.lt l -> NoDup l.
Proof.
  induction 1 as [|x l Hl IH Hx]; constructor; [|exact IH].
  intros Hin. apply (proj1 (Forall_forall _ _) Hx) in Hin. lia.
Qed.

(** C8.  Along any run of the server, from any store, the ids that the
    successful guest creations return are strictly increasing in the
    order of the requests, hence pairwise different, whatever is
    deleted in between. *)
Theorem guest_ids_strictly_increase (trace : list (env * request)) (s : store) :
  StronglySorted Z.lt (created_guest_ids (fst (run trace s))) /\
  NoDup (created_guest_ids (fst (run trace s))).
Proof.
  destruct (guest_ids_above trace s) as [_ H]. split; [exact H|].
  now apply sorted_lt_nodup.
Qed.

Example guest_ids_across_deletes :
  created_guest_ids
    (fst (run [(calm, PostGuest ann_guest); (calm, PostGuest ann_guest);
               (calm, DeleteGuest "2"); (calm, PostGuest ann_guest);
               (calm, DeleteGuests); (calm, PostGuest no_email);
               (calm, PostGuest ann_guest)] init_store))
  = [1; 2; 3; 4].
Proof. vm_compute. reflexivity. Qed.

(** *** CSV export *)

Lemma append_empty_r (s : string) : (s ++ "")%string = s.
Proof. induction s as [|c s IH]; cbn; [reflexivity | now rewrite IH]. Qed.

Lemma join_lines_first (first : string) (lines : list string) :
  join_lines (first :: lines) = (first ++ lines_after lines)%string.
Proof.
  revert first. induction lines as [|l ls IH]; intros first.
  - cbn. now rewrite append_empty_r.
  - change (join_lines (first :: l :: ls))
      with (first ++ String "010" (join_lines (l :: ls)))%string.
    now rewrite IH.
Qed.

Lemma length_append (a b : string) :
  String.length (a ++ b) = (String.length a + String.length b)%nat.
Proof. induction a as [|c a IH]; cbn; [reflexivity | now rewrite IH]. Qed.

(** C9.  Each export lists all rows of its table by descending
    [created_at] as text: the fixed header line first, then one line
    per row after a line feed; in a line the id (and the photo count)
    stands bare and every text column stands between two double quotes,
    character for character as stored, so a quote inside a value is
    not escaped. *)
Theorem export_csv_shape (e : env) (s : store) :
  db_fails e 0 = false ->
  (exists listed,
     export_guests e s =
       (Download "text/csv" "attachment; filename=guests.csv"
          ("ID,Name,Email,Gallery Name,Gallery ID,Visit Date,Created At"
           ++ lines_after (map guest_line listed)), s) /\
     Permutation listed (rows (guests s)) /\
     descending g_created_at listed) /\
  (exists listed,
     export_orders e s =
       (Download "text/csv" "attachment; filename=orders.csv"
          ("ID,Name,Email,Gallery Name,Gallery ID,Photo Count,Submitted At,Created At"
           ++ lines_after (map order_line listed)), s) /\
     Permutation listed (rows (orders s)) /\
     descending o_created_at listed) /\
  (forall r : guest,
     guest_line r =
       (string_of_Z (g_id r) ++ "," ++ quoted (g_name r) ++ "," ++ quoted (g_email r)
        ++ "," ++ quoted (g_gallery_name r) ++ "," ++ quoted (g_gallery_id r)
        ++ "," ++ quoted (g_visit_date r) ++ "," ++ quoted (g_created_at r))%string) /\
  (forall r : order,
     order_line r =
       (string_of_Z (o_id r) ++ "," ++ quoted (o_name r) ++ "," ++ quoted (o_email r)
        ++ "," ++ quoted (o_gallery_name r) ++ "," ++ quoted (o_gallery_id r)
        ++ "," ++ template_of_sql (o_photo_count r)
        ++ "," ++ quoted (o_submitted_at r) ++ "," ++ quoted (o_created_at r))%string) /\
  (forall n : Z, template_of_sql (SqlInt n) = string_of_Z n) /\
  (forall v : string,
     quoted v = String dquote (v ++ String dquote "")%string /\
     String.length (quoted v) = (String.length v + 2)%nat).
Proof.
  intros Hdb. unfold export_guests, export_orders. rewrite Hdb.
  split; [|split; [|split; [|split; [|split]]]]; try reflexivity.
  - exists (select_guests (guests s)). rewrite join_lines_first.
    split; [reflexivity|]. split; [apply order_by_desc_perm | apply order_by_desc_sorted].
  - exists (select_orders (orders s)). rewrite join_lines_first.
    split; [reflexivity|]. split; [apply order_by_desc_perm | apply order_by_desc_sorted].
  - intros v. split; [reflexivity|]. unfold quoted. cbn [String.length].
    rewrite length_append. cbn. lia.
Qed.

Lemma export_csv_shape_witness :
  exists listed,
    export_orders calm two_galleries =
      (Download "text/csv" "attachment; filename=orders.csv"
         ("ID,Name,Email,Gallery Name,Gallery ID,Photo Count,Submitted At,Created At"
          ++ lines_after (map order_line listed)), two_galleries) /\
    Permutation listed (rows (orders two_galleries)) /\
    descending o_created_at listed.
Proof.
  destruct (export_csv_shape calm two_galleries eq_refl) as (_ & Horders & _).
  exact Horders.
Defined.

Example export_keeps_quote :
  fst (export_guests calm (snd (post_guest calm quoted_guest init_store))) =
  Download "text/csv" "attachment; filename=guests.csv"
    ("ID,Name,Email,Gallery Name,Gallery ID,Visit Date,Created At" ++
     String "010"
       ("1," ++ String dquote ("A" ++ String dquote ("nn" ++ String dquote
        ("," ++ String dquote ("a@x.com" ++ String dquote
        ("," ++ String dquote ("Spring, 2024" ++ String dquote
        ("," ++ String dquote ("g1" ++ String dquote
        ("," ++ String dquote ("today" ++ String dquote
        ("," ++ String dquote ("2024-05-01 10:00:00" ++ String dquote ""))))))))))))))%string.
Proof. vm_compute. reflexivity. Qed.

Example export_empty :
  fst (export_guests calm init_store) =
  Download "text/csv" "attachment; filename=guests.csv"
    "ID,Name,Email,Gallery Name,Gallery ID,Visit Date,Created At".
Proof. reflexivity. Qed.

(** *** The default of the two dates *)

(** C10.  When [visitDate] (for an order, [submittedAt]) is falsy,
    whether absent or supplied as the empty string, [null], [false] or
    [0], the row is stored with the server's current time in that
    column. *)
Theorem falsy_date_defaults_to_now (e : env) (body : json) (photos : json) (s : store) :
  db_fails e 0 = false ->
  (guest_fields_present body = true ->
   truthy (prop body "visitDate") = false ->
   exists g,
     post_guest e body s =
       (ok [("success"%string, JBool true); ("id"%string, JNum (g_id g));
            ("message"%string, JStr "Guest info saved successfully")],
        mkStore (mkTable (rows (guests s) ++ [g]) (g_id g)) (orders s)) /\
     g_visit_date g = now_iso e) /\
  (order_fields_present body = true ->
   prop body "photos" = Some photos ->
   integer_column (bind_param (js_length photos)) <> None ->
   truthy (prop body "submittedAt") = false ->
   exists o,
     post_order e body s =
       (ok [("success"%string, JBool true); ("id"%string, JNum (o_id o));
            ("message"%string, JStr "Order submitted successfully")],
        mkStore (guests s) (mkTable (rows (orders s) ++ [o]) (o_id o))) /\
     o_submitted_at o = now_iso e).
Proof.
  intros Hdb. split.
  - intros Hp Hdate.
    destruct (post_guest_accepted e body s Hp Hdb) as (g & Hg & E).
    destruct Hg as (Hid & _ & _ & _ & _ & Hvd & _).
    rewrite (js_or_falsy _ _ Hdate) in Hvd. cbn in Hvd. injection Hvd as Hvd.
    exists g. rewrite E, Hid. auto.
  - intros Hp Hph Hlen Hdate.
    destruct (post_order_accepted e body s photos Hp Hph Hdb Hlen) as (o & Ho & E).
    destruct Ho as (Hid & _ & _ & _ & _ & _ & _ & Hsa & _).
    rewrite (js_or_falsy _ _ Hdate) in Hsa. cbn in Hsa. injection Hsa as Hsa.
    exists o. rewrite E, Hid. auto.
Qed.

Lemma falsy_date_defaults_to_now_witness :
  (exists g,
     post_guest calm blank_dates init_store =
       (ok [("success"%string, JBool true); ("id"%string, JNum (g_id g));
            ("message"%string, JStr "Guest info saved successfully")],
        mkStore (mkTable (rows (guests init_store) ++ [g]) (g_id g)) (orders init_store)) /\
     g_visit_date g = now_iso calm) /\
  (exists o,
     post_order calm blank_dates init_store =
       (ok [("success"%string, JBool true); ("id"%string, JNum (o_id o));
            ("message"%string, JStr "Order submitted successfully")],
        mkStore (guests init_store) (mkTable (rows (orders init_store) ++ [o]) (o_id o))) /\
     o_submitted_at o = now_iso calm).
Proof.
  destruct (falsy_date_defaults_to_now calm blank_dates (JArr [JStr "p1"]) init_store eq_refl)
    as [Hguest Horder].
  split.
  - apply Hguest; reflexivity.
  - apply Horder; [reflexivity | reflexivity | discriminate | reflexivity].
Defined.

Example zero_date_defaults :
  rows (guests (snd (post_guest calm
    (JObj [("name"%string, JStr "Ann"); ("email"%string, JStr "a@x.com");
           ("galleryName"%string, JStr "Spring"); ("galleryId"%string, JStr "g1");
           ("visitDate"%string, JNum 0)]) init_store)))
  = [mkGuest 1 "Ann" "a@x.com" "Spring" "g1"
       "2024-05-01T10:00:00.000Z" "2024-05-01 10:00:00"].
Proof. reflexivity. Qed.

(* ================================================================= *)
(** ** Further notions: routes, statuses, created orders *)

Module MoreProps.

(** The routes that write to table [guests]. *)
Definition writes_guests (r : request) : bool :=
  match r with
  | PostGuest _ | DeleteGuest _ | DeleteGuests => true
  | _ => false
  end.

(** The routes that write to table [orders]. *)
Definition writes_orders (r : request) : bool :=
  match r with
  | PostOrder _ | DeleteOrder _ | DeleteOrders => true
  | _ => false
  end.

(** The HTTP status of a response; a download is sent with 200. *)
Definition status (resp : response) : option Z :=
  match resp with
  | Json st _ => Some st
  | Download _ _ _ => Some 200
  | Thrown => None
  end.

(** The id an order create request was answered with, if it succeeded. *)
Definition created_order_id (entry : request * response) : option Z :=
  match entry with
  | (PostOrder _, Json 200 body) =>
      match prop body "id" with
      | Some (JNum (Int id)) => Some id
      | _ => None
      end
  | _ => None
  end.

Fixpoint created_order_ids (log : list (request * response)) : list Z :=
  match log with
  | [] => []
  | entry :: log' =>
      match created_order_id entry with
      | Some id => id :: created_order_ids log'
      | None => created_order_ids log'
      end
  end.

(** The keys of the rows grow with the rowid. *)
Definition keys_increase {row : Type} (key : row -> Z) (l : list row) : Prop :=
  StronglySorted (fun a b => key a < key b) l.

(** A guest request with a visit date. *)
Definition ann_visit : json :=
  JObj [("name"%string, JStr "Ann"); ("email"%string, JStr "a@x.com");
        ("galleryName"%string, JStr "Spring"); ("galleryId"%string, JStr "g1");
        ("visitDate"%string, JStr "2024-04-30")].

(** A store with two guests. *)
Definition two_guests : store :=
  snd (handle calm (PostGuest ann_visit)
         (snd (handle calm (PostGuest ann_guest) init_store))).

End MoreProps.
Import MoreProps.

(* ================================================================= *)
(** ** Further facts about the handlers *)

Module MoreFacts.

(** The three outcomes of [POST /api/guests]. *)
Lemma post_guest_cases e body s :
  (guest_fields_present body = false /\ post_guest e body s = (missing_fields, s)) \/
  (guest_fields_present body = true /\ db_fails e 0 = true /\
   post_guest e body s = (database_error, s)) \/
  (guest_fields_present body = true /\ db_fails e 0 = false /\
   exists g,
     guest_row e body (next_id (guests s)) g /\
     post_guest e body s =
       (ok [("success"%string, JBool true);
            ("id"%string, JNum (next_id (guests s)));
            ("message"%string, JStr "Guest info saved successfully")],
        mkStore (insert_row g (guests s)) (orders s))).
Proof.
  destruct (guest_fields_present body) eqn:Hp;
    [|left; split; [reflexivity | now apply post_guest_rejected]].
  right. destruct (db_fails e 0) eqn:Hdb.
  - left. repeat split. unfold post_guest. now rewrite guest_guard, Hp, Hdb.
  - right. repeat split. now apply post_guest_accepted.
Qed.

(** The outcomes of [POST /api/orders]. *)
Lemma post_order_cases e body s :
  post_order e body s = (missing_fields, s) \/
  post_order e body s = (database_error, s) \/
  exists photos o,
    truthy (Some photos) = true /\ prop body "photos" = Some photos /\
    order_row e body (next_id (orders s)) photos o /\
    post_order e body s =
      (ok [("success"%string, JBool true);
           ("id"%string, JNum (next_id (orders s)));
           ("message"%string, JStr "Order submitted successfully")],
       mkStore (guests s) (insert_row o (orders s))).
Proof.
  destruct (order_fields_present body) eqn:Hp;
    [|left; now apply post_order_rejected].
  destruct (prop body "photos") as [photos|] eqn:Hph;
    [|unfold order_fields_present in Hp; rewrite Hph in Hp; cbn in Hp;
      rewrite andb_false_r in Hp; discriminate].
  right. destruct (db_fails e 0) eqn:Hdb.
  { left. unfold post_order. now rewrite order_guard, Hp, Hph, Hdb. }
  destruct (integer_column (bind_param (js_length photos))) as [pc|] eqn:Epc.
  - right. destruct (post_order_accepted e body s photos Hp Hph Hdb) as (o & Ho & E);
      [congruence|].
    exists photos, o. split; [|split; [reflexivity|split; [exact Ho|exact E]]].
    unfold order_fields_present in Hp. rewrite Hph in Hp.
    now apply andb_true_iff in Hp as [_ ->].
  - left. unfold post_order. rewrite order_guard, Hp, Hph, Hdb. cbn [negb].
    unfold insert_order. rewrite Epc.
    destruct (text_column (bind_param (prop body "name"))),
      (text_column (bind_param (prop body "email"))),
      (text_column (bind_param (prop body "galleryName"))),
      (text_column (bind_param (prop body "galleryId"))); reflexivity.
Qed.

End MoreFacts.
Import MoreFacts.

(* ================================================================= *)
(** ** Further properties of the handlers *)

(** *** Outcomes of a guest creation *)

(** X9.  A guest request is answered 400 exactly when one of the four
    required fields is falsy; otherwise it is answered 500 exactly when
    the storage engine fails, and else it succeeds: no value of the
    fields can make the INSERT violate a constraint.  A success appends
    one row with the next key and returns that key. *)
Theorem guest_create_outcomes (e : env) (body : json) (s : store) :
  post_guest e body s =
    (if negb (guest_fields_present body) then
       Json 400 (JObj [("error"%string, JStr "Missing required fields")])
     else if db_fails e 0 then
       Json 500 (JObj [("error"%string, JStr "Database error")])
     else
       ok [("success"%string, JBool true);
           ("id"%string, JNum (seq (guests s) + 1));
           ("message"%string, JStr "Guest info saved successfully")],
     snd (post_guest e body s)) /\
  (guest_fields_present body = false \/ db_fails e 0 = true ->
   snd (post_guest e body s) = s) /\
  (guest_fields_present body = true -> db_fails e 0 = false ->
   exists g,
     g_id g = seq (guests s) + 1 /\
     g_created_at g = current_timestamp e /\
     snd (post_guest e body s) =
       mkStore (mkTable (rows (guests s) ++ [g]) (seq (guests s) + 1)) (orders s)).
Proof.
  destruct (post_guest_cases e body s)
    as [[Hp E] | [(Hp & Hdb & E) | (Hp & Hdb & g & Hg & E)]];
    rewrite E, Hp; cbn [negb fst snd]; rewrite ?Hdb.
  - repeat split; auto. discriminate.
  - repeat split; auto. discriminate.
  - split; [reflexivity|]. split; [intros [H | H]; discriminate|].
    intros _ _. exists g. destruct Hg as (Hid & _ & _ & _ & _ & _ & Hc).
    repeat split; auto.
Qed.

Lemma guest_create_outcomes_witness :
  snd (post_guest calm no_email two_guests) = two_guests /\
  exists g,
    g_id g = seq (guests two_guests) + 1 /\
    g_created_at g = current_timestamp calm /\
    snd (post_guest calm ann_guest two_guests) =
      mkStore (mkTable (rows (guests two_guests) ++ [g]) (seq (guests two_guests) + 1))
              (orders two_guests).
Proof.
  split.
  - apply (guest_create_outcomes calm no_email two_guests). left. reflexivity.
  - apply (guest_create_outcomes calm ann_guest two_guests); reflexivity.
Defined.

(** *** What leaves the store alone *)

Lemma read_only_unchanged e r s :
  writes_guests r = false -> writes_orders r = false -> snd (handle e r s) = s.
Proof.
  destruct r; cbn [writes_guests writes_orders handle]; try discriminate; intros _ _.
  - reflexivity.
  - unfold get_guests. now destruct (db_fails e 0).
  - unfold get_orders. now destruct (db_fails e 0).
  - unfold get_orders_by_gallery. now destruct (db_fails e 0).
  - unfold export_guests. now destruct (db_fails e 0).
  - unfold export_orders. now destruct (db_fails e 0).
  - unfold get_stats. now destruct (db_fails e 0), (db_fails e 1), (db_fails e 2).
Qed.

Lemma failure_unchanged e r s :
  status (fst (handle e r s)) <> Some 200 -> snd (handle e r s) = s.
Proof.
  destruct (writes_guests r || writes_orders r) eqn:Hw.
  2:{ apply orb_false_iff in Hw as [Hg Ho]. intros _. now apply read_only_unchanged. }
  destruct r; try discriminate Hw; cbn [handle]; clear Hw.
  - destruct (post_guest_cases e body s) as [[_ E] | [(_ & _ & E) | (_ & _ & g & _ & E)]];
      rewrite E; cbn; congruence.
  - destruct (post_order_cases e body s) as [E | [E | (ph & o & _ & _ & _ & E)]];
      rewrite E; cbn; congruence.
  - unfold delete_guest. destruct (db_fails e 0); cbn; congruence.
  - unfold delete_order. destruct (db_fails e 0); cbn; congruence.
  - unfold delete_guests. destruct (db_fails e 0); cbn; congruence.
  - unfold delete_orders. destruct (db_fails e 0); cbn; congruence.
Qed.

(** X3.  The store changes only when a create or a delete request is
    answered with status 200: a read request, and any request answered
    with 400 or 500, leaves both tables and both key sequences exactly
    as they were. *)
Theorem store_changes_only_on_success (e : env) (r : request) (s : store) :
  (writes_guests r || writes_orders r = false) \/
  status (fst (handle e r s)) <> Some 200 ->
  snd (handle e r s) = s.
Proof.
  intros [Hw | Hst].
  - apply orb_false_iff in Hw as [Hg Ho]. now apply read_only_unchanged.
  - now apply failure_unchanged.
Qed.

Lemma store_changes_only_on_success_witness :
  snd (handle (mkEnv "" "" (fun _ => true)) DeleteGuests two_guests) = two_guests /\
  snd (handle calm ExportGuests two_guests) = two_guests.
Proof.
  split.
  - apply (store_changes_only_on_success (mkEnv "" "" (fun _ => true)) DeleteGuests
             two_guests).
    right. cbn. discriminate.
  - apply (store_changes_only_on_success calm ExportGuests two_guests).
    left. reflexivity.
Defined.

(** X4.  The two tables are independent: whatever a request does, the
    table [orders] changes only under the three order-writing routes
    and the table [guests] only under the three guest-writing routes;
    deleting guests never touches an order and conversely. *)
Theorem tables_are_independent (e : env) (r : request) (s : store) :
  (writes_orders r = false -> orders (snd (handle e r s)) = orders s) /\
  (writes_guests r = false -> guests (snd (handle e r s)) = guests s).
Proof.
  destruct (writes_guests r) eqn:Hg; destruct (writes_orders r) eqn:Ho;
    try (split; intros _; now rewrite (read_only_unchanged e r s Hg Ho));
    split; try discriminate; intros _.
  - destruct r; try discriminate; cbn [handle].
    + destruct (post_guest_cases e body s)
        as [[_ E] | [(_ & _ & E) | (_ & _ & g & _ & E)]]; now rewrite E.
    + unfold delete_guest. now destruct (db_fails e 0).
    + unfold delete_guests. now destruct (db_fails e 0).
  - destruct r; try discriminate; cbn [handle].
    + destruct (post_order_cases e body s) as [E | [E | (ph & o & _ & _ & _ & E)]];
        now rewrite E.
    + unfold delete_order. now destruct (db_fails e 0).
    + unfold delete_orders. now destruct (db_fails e 0).
Qed.

Lemma tables_are_independent_witness :
  orders (snd (handle calm DeleteGuests two_galleries)) = orders two_galleries /\
  guests (snd (handle calm DeleteOrders two_guests)) = guests two_guests.
Proof.
  split.
  - apply (tables_are_independent calm DeleteGuests two_galleries). reflexivity.
  - apply (tables_are_independent calm DeleteOrders two_guests). reflexivity.
Defined.

(** *** No handler throws *)

(** X15.  On a store that the server itself has written, no handler
    lets an exception escape: in particular [JSON.parse] never fails on
    a stored [photos] column, whatever the requests were. *)
Theorem handlers_never_throw (e : env) (r : request) (s : store) :
  reachable s -> fst (handle e r s) <> Thrown.
Proof.
  intros Hs. pose proof (reachable_ok s Hs) as Hok.
  destruct r; cbn [handle].
  - discriminate.
  - destruct (post_guest_cases e body s)
      as [[_ E] | [(_ & _ & E) | (_ & _ & g & _ & E)]]; rewrite E; discriminate.
  - destruct (post_order_cases e body s) as [E | [E | (ph & o & _ & _ & _ & E)]];
      rewrite E; discriminate.
  - unfold get_guests. destruct (db_fails e 0); discriminate.
  - destruct (db_fails e 0) eqn:Hdb.
    + unfold get_orders. rewrite Hdb. discriminate.
    + rewrite (get_orders_views e s Hok Hdb). discriminate.
  - destruct (db_fails e 0) eqn:Hdb.
    + unfold get_orders_by_gallery. rewrite Hdb. discriminate.
    + rewrite (get_orders_by_gallery_views e galleryId s Hok Hdb). discriminate.
  - unfold delete_guest. destruct (db_fails e 0); discriminate.
  - unfold delete_order. destruct (db_fails e 0); discriminate.
  - unfold delete_guests. destruct (db_fails e 0); discriminate.
  - unfold delete_orders. destruct (db_fails e 0); discriminate.
  - unfold export_guests. destruct (db_fails e 0); discriminate.
  - unfold export_orders. destruct (db_fails e 0); discriminate.
  - unfold get_stats. destruct (db_fails e 0), (db_fails e 1), (db_fails e 2); discriminate.
Qed.

Lemma handlers_never_throw_witness :
  fst (handle calm GetOrders two_galleries) <> Thrown.
Proof.
  apply (handlers_never_throw calm GetOrders two_galleries).
  apply reach_step, reach_step, reach_init.
Defined.

(** *** Keys *)

Lemma keys_increase_filter {row : Type} (key : row -> Z) keep (l : list row) :
  keys_increase key l -> keys_increase key (filter keep l).
Proof.
  unfold keys_increase. induction 1 as [|x l Hl IH Hx]; cbn [filter]; [constructor|].
  destruct (keep x); [|exact IH]. constructor; [exact IH|].
  now apply Forall_filter.
Qed.

Lemma keys_increase_snoc {row : Type} (key : row -> Z) (l : list row) (x : row) :
  keys_increase key l -> Forall (fun a => key a < key x) l ->
  keys_increase key (l ++ [x]).
Proof.
  unfold keys_increase. induction 1 as [|y l Hl IH Hy]; intros Hall; cbn [Datatypes.app].
  - repeat constructor.
  - apply Forall_cons_iff in Hall as [Hyx Hall]. constructor; [now apply IH|].
    apply Forall_app. split; [exact Hy|]. now constructor.
Qed.

Lemma keys_increase_nodup {row : Type} (key : row -> Z) (l : list row) :
  keys_increase key l -> NoDup (map key l).
Proof.
  unfold keys_increase. induction 1 as [|x l Hl IH Hx]; cbn [map]; constructor; [|exact IH].
  intros Hin. apply in_map_iff in Hin as (y & Heq & Hy).
  apply (proj1 (Forall_forall _ _) Hx) in Hy. lia.
Qed.

Lemma store_step_keys s s' :
  store_step s s' -> store_ok s ->
  keys_increase g_id (rows (guests s)) /\ keys_increase o_id (rows (orders s)) ->
  keys_increase g_id (rows (guests s')) /\ keys_increase o_id (rows (orders s')).
Proof.
  intros Hstep [Hg Ho] [Kg Ko].
  destruct Hstep as [| g Hid | o ph Ht Hid Hph Hpc | keep | keep];
    cbn [guests orders rows insert_row]; split; auto using keys_increase_filter.
  - apply keys_increase_snoc; [exact Kg|].
    eapply Forall_impl; [|exact Hg]. cbn. unfold next_id in Hid. intros; lia.
  - apply keys_increase_snoc; [exact Ko|].
    eapply Forall_impl; [|exact Ho]. cbn. unfold next_id in Hid.
    intros a [Ha _]. lia.
Qed.

Lemma reachable_keys s :
  reachable s ->
  keys_increase g_id (rows (guests s)) /\ keys_increase o_id (rows (orders s)).
Proof.
  induction 1 as [|e r s Hs IH].
  - split; constructor.
  - eapply store_step_keys; [apply handle_step | now apply reachable_ok | exact IH].
Qed.

Definition keys_positive (s : store) : Prop :=
  (0 <= seq (guests s) /\ Forall (fun g => 0 < g_id g) (rows (guests s))) /\
  (0 <= seq (orders s) /\ Forall (fun o => 0 < o_id o) (rows (orders s))).

Lemma store_step_positive s s' : store_step s s' -> keys_positive s -> keys_positive s'.
Proof.
  intros Hstep [[Sg Pg] [So Po]].
  destruct Hstep as [| g Hid | o ph Ht Hid Hph Hpc | keep | keep];
    unfold keys_positive, insert_row, next_id in *; cbn [guests orders rows seq];
    repeat split; auto using Forall_filter; try lia.
  - apply Forall_app. split; [exact Pg|]. constructor; [lia|constructor].
  - apply Forall_app. split; [exact Po|]. constructor; [lia|constructor].
Qed.

Lemma reachable_positive s : reachable s -> keys_positive s.
Proof.
  induction 1 as [|e r s Hs IH].
  - repeat split; try constructor; cbn; lia.
  - eapply store_step_positive; [apply handle_step | exact IH].
Qed.

Lemma Forall_both {A : Type} (P Q : A -> Prop) (l : list A) :
  Forall P l -> Forall Q l -> Forall (fun x => P x /\ Q x) l.
Proof. induction 1; intros HQ; inversion HQ; subst; constructor; auto. Qed.

(** X5.  In every store the server reaches, the keys of each table grow
    strictly along the rows, so no two guests and no two orders share
    an id; every key is positive and none exceeds the table's sequence
    value, from which the next key is taken. *)
Theorem keys_unique_and_bounded (s : store) :
  reachable s ->
  (keys_increase g_id (rows (guests s)) /\
   NoDup (map g_id (rows (guests s))) /\
   Forall (fun g => 0 < g_id g /\ g_id g <= seq (guests s)) (rows (guests s))) /\
  (keys_increase o_id (rows (orders s)) /\
   NoDup (map o_id (rows (orders s))) /\
   Forall (fun o => 0 < o_id o /\ o_id o <= seq (orders s)) (rows (orders s))).
Proof.
  intros Hs. destruct (reachable_keys s Hs) as [Kg Ko].
  destruct (reachable_ok s Hs) as [Bg Bo].
  destruct (reachable_positive s Hs) as [[_ Pg] [_ Po]].
  split; (split; [assumption|]); (split; [now apply keys_increase_nodup|]).
  - now apply Forall_both.
  - apply Forall_both; [exact Po|]. eapply Forall_impl; [|exact Bo].
    now intros o [Ho _].
Qed.

Lemma keys_unique_and_bounded_witness :
  (keys_increase g_id (rows (guests two_guests)) /\
   NoDup (map g_id (rows (guests two_guests))) /\
   Forall (fun g => 0 < g_id g /\ g_id g <= seq (guests two_guests))
          (rows (guests two_guests))) /\
  (keys_increase o_id (rows (orders two_guests)) /\
   NoDup (map o_id (rows (orders two_guests))) /\
   Forall (fun o => 0 < o_id o /\ o_id o <= seq (orders two_guests))
          (rows (orders two_guests))).
Proof.
  apply (keys_unique_and_bounded two_guests).
  apply reach_step, reach_step, reach_init.
Defined.

(** *** Deleting a row that exists *)

Lemma sorted_around {A : Type} (R : A -> A -> Prop) (l1 l2 : list A) (x : A) :
  StronglySorted R (l1 ++ x :: l2) ->
  Forall (fun a => R a x) l1 /\ Forall (R x) l2.
Proof.
  induction l1 as [|y l1 IH]; cbn [Datatypes.app]; intros H.
  - apply StronglySorted_inv in H as [_ H]. split; [constructor | exact H].
  - apply StronglySorted_inv in H as [Hs Hy]. destruct (IH Hs) as [H1 H2].
    split; [|exact H2]. constructor; [|exact H1].
    apply Forall_app in Hy as [_ Hy]. now apply Forall_cons_iff in Hy as [Hy _].
Qed.

Lemma id_equals_text id n k :
  int_of_text id = Some n -> id_equals (SqlText id) k = (n =? k).
Proof. intros H. unfold id_equals, integer_affinity. now rewrite H. Qed.

Lemma delete_where_id_present {row : Type} (key : row -> Z) (id : string) (n : Z)
    (t : table row) (r : row) :
  int_of_text id = Some n -> keys_increase key (rows t) ->
  In r (rows t) -> key r = n ->
  exists before after,
    rows t = before ++ r :: after /\
    delete_where_id key (SqlText id) t = (1%nat, mkTable (before ++ after) (seq t)).
Proof.
  intros Hid Hkeys Hin Hr. apply in_split in Hin as (l1 & l2 & E).
  exists l1, l2. split; [exact E|]. unfold delete_where_id. rewrite E in Hkeys |- *.
  apply sorted_around in Hkeys as [H1 H2].
  rewrite filter_app. cbn [filter]. rewrite (id_equals_text id n _ Hid), Hr, Z.eqb_refl.
  cbn [negb]. rewrite !filter_everything.
  - f_equal. rewrite !length_app. cbn [List.length]. lia.
  - intros x Hx. apply (proj1 (Forall_forall _ _) H2) in Hx.
    rewrite (id_equals_text id n _ Hid). apply negb_true_iff, Z.eqb_neq. lia.
  - intros x Hx. apply (proj1 (Forall_forall _ _) H1) in Hx.
    rewrite (id_equals_text id n _ Hid). apply negb_true_iff, Z.eqb_neq. lia.
Qed.

(** X6.  Deleting by the id of a row that exists removes that row and
    no other: the DELETE changes exactly one row, the rows before and
    after it stay in place, the key sequence is not lowered and the
    other table is untouched. *)
Theorem delete_existing_removes_one (e : env) (id : string) (n : Z) (s : store) :
  reachable s -> db_fails e 0 = false -> int_of_text id = Some n ->
  (forall g, In g (rows (guests s)) -> g_id g = n ->
     exists before after,
       rows (guests s) = before ++ g :: after /\
       fst (delete_where_id g_id (SqlText id) (guests s)) = 1%nat /\
       delete_guest e id s =
         (ok [("success"%string, JBool true); ("message"%string, JStr "Guest deleted")],
          mkStore (mkTable (before ++ after) (seq (guests s))) (orders s))) /\
  (forall o, In o (rows (orders s)) -> o_id o = n ->
     exists before after,
       rows (orders s) = before ++ o :: after /\
       fst (delete_where_id o_id (SqlText id) (orders s)) = 1%nat /\
       delete_order e id s =
         (ok [("success"%string, JBool true); ("message"%string, JStr "Order deleted")],
          mkStore (guests s) (mkTable (before ++ after) (seq (orders s))))).
Proof.
  intros Hs Hdb Hid. destruct (reachable_keys s Hs) as [Kg Ko]. split.
  - intros g Hin Hg.
    destruct (delete_where_id_present g_id id n (guests s) g Hid Kg Hin Hg)
      as (l1 & l2 & E & D).
    exists l1, l2. unfold delete_guest. rewrite Hdb, D. auto.
  - intros o Hin Ho.
    destruct (delete_where_id_present o_id id n (orders s) o Hid Ko Hin Ho)
      as (l1 & l2 & E & D).
    exists l1, l2. unfold delete_order. rewrite Hdb, D. auto.
Qed.

Lemma delete_existing_removes_one_witness :
  exists before after,
    rows (orders two_galleries) =
      before ++ mkOrder 1 "Bob" "b@x.com" "Autumn" "g2" (SqlInt 2)
                  (stringify (JArr [JStr "q1"; JStr "q2"]))
                  "2024-05-01T10:00:00.000Z" "2024-05-01 10:00:00" :: after /\
    fst (delete_where_id o_id (SqlText "1") (orders two_galleries)) = 1%nat /\
    delete_order calm "1" two_galleries =
      (ok [("success"%string, JBool true); ("message"%string, JStr "Order deleted")],
       mkStore (guests two_galleries)
               (mkTable (before ++ after) (seq (orders two_galleries)))).
Proof.
  apply (delete_existing_removes_one calm "1" 1 two_galleries).
  - apply reach_step, reach_step, reach_init.
  - reflexivity.
  - reflexivity.
  - vm_compute. auto.
  - reflexivity.
Defined.

(** *** Listing guests *)

Lemma guest_object_id g : prop (guest_object g) "id" = Some (JNum (g_id g)).
Proof. reflexivity. Qed.

Lemma get_guests_ok e s :
  db_fails e 0 = false ->
  get_guests e s =
    (ok [("success"%string, JBool true);
         ("guests"%string, JArr (map guest_object (select_guests (guests s))))], s).
Proof. intros Hdb. unfold get_guests. now rewrite Hdb. Qed.

(** X14.  After a guest is deleted by id, the guest list holds exactly
    the entries it held before whose id is another one: the deleted id
    is gone, nothing else is. *)
Theorem deleted_guest_leaves_list (e e1 e2 : env) (id : string) (n : Z) (s : store) :
  db_fails e 0 = false -> db_fails e1 0 = false -> db_fails e2 0 = false ->
  int_of_text id = Some n ->
  exists before after,
    fst (get_guests e1 s) =
      ok [("success"%string, JBool true); ("guests"%string, JArr before)] /\
    fst (get_guests e2 (snd (delete_guest e id s))) =
      ok [("success"%string, JBool true); ("guests"%string, JArr after)] /\
    forall entry,
      In entry after <-> In entry before /\ prop entry "id" <> Some (JNum n).
Proof.
  intros Hdb Hdb1 Hdb2 Hid.
  rewrite (get_guests_ok e1 s Hdb1), (get_guests_ok e2 _ Hdb2).
  eexists. eexists. split; [reflexivity|]. split; [reflexivity|].
  unfold delete_guest. rewrite Hdb. cbn [snd delete_where_id guests rows].
  intros entry. unfold select_guests. cbn [rows]. rewrite !in_map_iff. split.
  - intros (g & <- & Hg). apply order_by_desc_in, filter_In in Hg as [Hg Hne].
    rewrite (id_equals_text id n _ Hid) in Hne.
    apply negb_true_iff, Z.eqb_neq in Hne. split.
    + exists g. split; [reflexivity|]. now apply order_by_desc_in.
    + rewrite guest_object_id. congruence.
  - intros [(g & <- & Hg) Hne]. exists g. split; [reflexivity|].
    apply order_by_desc_in, filter_In. split; [now apply order_by_desc_in in Hg|].
    rewrite (id_equals_text id n _ Hid). apply negb_true_iff, Z.eqb_neq.
    intros ->. apply Hne, guest_object_id.
Qed.

Lemma deleted_guest_leaves_list_witness :
  exists before after,
    fst (get_guests calm two_guests) =
      ok [("success"%string, JBool true); ("guests"%string, JArr before)] /\
    fst (get_guests calm (snd (delete_guest calm "2" two_guests))) =
      ok [("success"%string, JBool true); ("guests"%string, JArr after)] /\
    forall entry,
      In entry after <-> In entry before /\ prop entry "id" <> Some (JNum 2).
Proof.
  apply (deleted_guest_leaves_list calm calm calm "2" 2 two_guests); reflexivity.
Defined.

(** *** The ids of created orders *)

Lemma store_step_order_seq s s' :
  store_step s s' -> seq (orders s) <= seq (orders s').
Proof.
  intros [| g Hid | o ph _ _ _ _ | keep | keep]; cbn; unfold next_id; lia.
Qed.

Lemma post_order_id e body s id :
  created_order_id (PostOrder body, fst (post_order e body s)) = Some id ->
  id = seq (orders s) + 1 /\ seq (orders (snd (post_order e body s))) = id.
Proof.
  destruct (post_order_cases e body s) as [E | [E | (ph & o & _ & _ & _ & E)]];
    rewrite E; try discriminate.
  cbn. unfold next_id. intros [= <-]. auto.
Qed.

Lemma handle_order_id e r s id :
  created_order_id (r, fst (handle e r s)) = Some id ->
  seq (orders s) < id /\ seq (orders (snd (handle e r s))) = id.
Proof.
  destruct r; cbn [created_order_id]; try discriminate. cbn [handle]. intros H.
  apply post_order_id in H as [-> H]. split; [lia | exact H].
Qed.

Lemma order_ids_above trace s :
  Forall (fun id => seq (orders s) < id) (created_order_ids (fst (run trace s))) /\
  StronglySorted Z.lt (created_order_ids (fst (run trace s))).
Proof.
  revert s. induction trace as [|[e r] trace IH]; intros s.
  - split; constructor.
  - rewrite run_cons. cbn [fst created_order_ids].
    destruct (IH (snd (handle e r s))) as [Habove Hsorted].
    pose proof (store_step_order_seq _ _ (handle_step e r s)) as Hmono.
    destruct (created_order_id (r, fst (handle e r s))) as [id|] eqn:Hid.
    + apply handle_order_id in Hid as [Hlt Hseq]. rewrite Hseq in Habove.
      split.
      * constructor; [exact Hlt|]. eapply Forall_impl; [|exact Habove].
        cbn. intros; lia.
      * constructor; assumption.
    + split; [|exact Hsorted]. eapply Forall_impl; [|exact Habove].
      cbn. intros; lia.
Qed.

(** X7.  Along any run of the server, from any store, the ids returned
    by the successful order creations are strictly increasing, hence
    pairwise different, and each is larger than every order key
    assigned before the run: a deleted order's id is never given out
    again. *)
Theorem order_ids_strictly_increase (trace : list (env * request)) (s : store) :
  StronglySorted Z.lt (created_order_ids (fst (run trace s))) /\
  NoDup (created_order_ids (fst (run trace s))) /\
  Forall (fun id => seq (orders s) < id) (created_order_ids (fst (run trace s))).
Proof.
  destruct (order_ids_above trace s) as [Habove H].
  split; [exact H|]. split; [now apply sorted_lt_nodup | exact Habove].
Qed.

Example order_ids_across_deletes :
  created_order_ids
    (fst (run [(calm, PostOrder (ann_order (JArr [JStr "p1"])));
               (calm, DeleteOrder "1");
               (calm, PostOrder (ann_order (JArr [])));
               (calm, DeleteOrders);
               (calm, PostOrder (ann_order (JNum 5)));
               (calm, PostOrder (ann_order (JStr "p")))] init_store))
  = [1; 2; 3].
Proof. vm_compute. reflexivity. Qed.

(** *** Listing all rows *)

(** X1.  The guest list is the storage error when the query fails;
    otherwise it holds every stored guest once, as the object of its
    seven columns, by descending [created_at], and the empty list when
    there is no guest.  The store is not changed. *)
Theorem guests_listed_newest_first (e : env) (s : store) :
  exists listed,
    get_guests e s =
      (if db_fails e 0 then Json 500 (JObj [("error"%string, JStr "Database error")])
       else ok [("success"%string, JBool true);
                ("guests"%string, JArr (map guest_object listed))], s) /\
    Permutation listed (rows (guests s)) /\
    descending g_created_at listed /\
    List.length listed = List.length (rows (guests s)).
Proof.
  exists (select_guests (guests s)). unfold get_guests.
  split; [now destruct (db_fails e 0)|].
  split; [apply order_by_desc_perm|]. split; [apply order_by_desc_sorted|].
  apply order_by_desc_length.
Qed.



(** X19.  In the order list of a store the server has written, an
    entry whose [photos] is a list has a [photo_count] equal to the
    length of that list. *)
Theorem listed_photo_count_is_length (e : env) (s : store) :
  reachable s -> db_fails e 0 = false ->
  exists entries,
    fst (get_orders e s) =
      ok [("success"%string, JBool true); ("orders"%string, JArr entries)] /\
    forall entry l,
      In entry entries -> prop entry "photos" = Some (JArr l) ->
      prop entry "photo_count" = Some (JNum (Z.of_nat (List.length l))).
Proof.
  intros Hs Hdb. pose proof (reachable_ok s Hs) as Hok.
  rewrite (get_orders_views e s Hok Hdb). eexists. split; [reflexivity|].
  intros entry l Hin Hph. apply in_map_iff in Hin as (o & <- & Ho).
  apply order_by_desc_in in Ho. destruct Hok as [_ Hall].
  apply (proj1 (Forall_forall _ _) Hall) in Ho as (_ & ph & _ & Hstored & Hpc).
  rewrite order_view_photos in Hph. unfold photos_value in Hph.
  rewrite Hstored, JSONFacts.parse_stringify in Hph. injection Hph as Hph.
  now rewrite order_view_photo_count, (stored_array_reread ph _ l Hpc Hph).
Qed.

Lemma listed_photo_count_is_length_witness :
  exists entries,
    fst (get_orders calm two_galleries) =
      ok [("success"%string, JBool true); ("orders"%string, JArr entries)] /\
    forall entry l,
      In entry entries -> prop entry "photos" = Some (JArr l) ->
      prop entry "photo_count" = Some (JNum (Z.of_nat (List.length l))).
Proof.
  apply (listed_photo_count_is_length calm two_galleries);
    [apply reach_step, reach_step, reach_init | reflexivity].
Defined.

(** X11.  The list of one gallery holds exactly the entries of the full
    order list whose [gallery_id] is the requested text. *)
Theorem gallery_list_is_part_of_full_list (e1 e2 : env) (galleryId : string) (s : store) :
  reachable s -> db_fails e1 0 = false -> db_fails e2 0 = false ->
  exists all part,
    fst (get_orders e1 s) =
      ok [("success"%string, JBool true); ("orders"%string, JArr all)] /\
    fst (get_orders_by_gallery e2 galleryId s) =
      ok [("success"%string, JBool true); ("orders"%string, JArr part)] /\
    forall entry,
      In entry part <->
      In entry all /\ prop entry "gallery_id" = Some (JStr galleryId).
Proof.
  intros Hs Hdb1 Hdb2. pose proof (reachable_ok s Hs) as Hok.
  rewrite (get_orders_views e1 s Hok Hdb1),
    (get_orders_by_gallery_views e2 galleryId s Hok Hdb2).
  eexists. eexists. split; [reflexivity|]. split; [reflexivity|].
  intros entry. unfold select_orders_where_gallery, select_orders.
  rewrite !in_map_iff. split.
  - intros (o & <- & Ho). apply order_by_desc_in, filter_In in Ho as [Ho Hg].
    cbn in Hg. apply String.eqb_eq in Hg. split.
    + exists o. split; [reflexivity|]. now apply order_by_desc_in.
    + rewrite order_view_gallery_id. now rewrite Hg.
  - intros [(o & <- & Ho) Hg]. exists o. split; [reflexivity|].
    apply order_by_desc_in, filter_In. split; [now apply order_by_desc_in in Ho|].
    rewrite order_view_gallery_id in Hg. injection Hg as ->.
    cbn. apply String.eqb_refl.
Qed.

Lemma gallery_list_is_part_of_full_list_witness :
  exists all part,
    fst (get_orders calm two_galleries) =
      ok [("success"%string, JBool true); ("orders"%string, JArr all)] /\
    fst (get_orders_by_gallery calm "g2" two_galleries) =
      ok [("success"%string, JBool true); ("orders"%string, JArr part)] /\
    forall entry,
      In entry part <->
      In entry all /\ prop entry "gallery_id" = Some (JStr "g2").
Proof.
  apply (gallery_list_is_part_of_full_list calm calm "g2" two_galleries);
    [apply reach_step, reach_step, reach_init | reflexivity | reflexivity].
Defined.

(** *** A created guest is read back *)

(** X8.  A guest created with text fields is listed afterwards under
    the id that was returned, with exactly those texts, unchanged, in
    its columns; [visit_date] is the submitted text, or the current
    time when that text is empty; [created_at] is the time of the
    insertion. *)
Theorem guest_round_trip (e e1 : env) (body : json)
    (name email galleryName galleryId visitDate : string) (s : store) :
  reachable s ->
  prop body "name" = Some (JStr name) -> prop body "email" = Some (JStr email) ->
  prop body "galleryName" = Some (JStr galleryName) ->
  prop body "galleryId" = Some (JStr galleryId) ->
  prop body "visitDate" = Some (JStr visitDate) ->
  guest_fields_present body = true ->
  db_fails e 0 = false -> db_fails e1 0 = false ->
  exists (id : Z) entries,
    fst (post_guest e body s) =
      ok [("success"%string, JBool true); ("id"%string, JNum id);
          ("message"%string, JStr "Guest info saved successfully")] /\
    fst (get_guests e1 (snd (post_guest e body s))) =
      ok [("success"%string, JBool true); ("guests"%string, JArr entries)] /\
    (exists entry, In entry entries /\ prop entry "id" = Some (JNum id)) /\
    (forall entry,
        In entry entries -> prop entry "id" = Some (JNum id) ->
        entry =
          JObj [("id"%string, JNum id);
                ("name"%string, JStr name);
                ("email"%string, JStr email);
                ("gallery_name"%string, JStr galleryName);
                ("gallery_id"%string, JStr galleryId);
                ("visit_date"%string,
                 JStr (if (visitDate =? "")%string then now_iso e else visitDate));
                ("created_at"%string, JStr (current_timestamp e))]).
Proof.
  intros Hs Hn Hem Hgn Hgi Hvd Hp Hdb Hdb1.
  destruct (post_guest_accepted e body s Hp Hdb) as (g & Hg & E).
  destruct (reachable_ok s Hs) as [Hold _].
  rewrite E. cbn [fst snd]. rewrite (get_guests_ok e1 _ Hdb1). cbn [fst].
  destruct Hg as (Hid & Hname & Hemail & Hgname & Hgid & Hvisit & Hcreated).
  rewrite Hn in Hname. rewrite Hem in Hemail. rewrite Hgn in Hgname.
  rewrite Hgi in Hgid. rewrite Hvd in Hvisit. cbn in Hname, Hemail, Hgname, Hgid.
  injection Hname as Hname. injection Hemail as Hemail.
  injection Hgname as Hgname. injection Hgid as Hgid.
  assert (Hv : g_visit_date g = if (visitDate =? "")%string then now_iso e else visitDate).
  { cbn [js_or truthy] in Hvisit. destruct (visitDate =? "")%string;
      cbn in Hvisit; congruence. }
  exists (next_id (guests s)). eexists. split; [reflexivity|]. split; [reflexivity|].
  unfold select_guests. cbn [guests rows insert_row]. split.
  - exists (guest_object g). split; [|now rewrite guest_object_id, Hid].
    apply in_map, order_by_desc_in, in_or_app. right. now left.
  - intros entry Hin Hentry. apply in_map_iff in Hin as (g' & <- & Hg').
    rewrite guest_object_id in Hentry. injection Hentry as Hentry.
    apply order_by_desc_in, in_app_or in Hg' as [Hg' | [<- | []]].
    + apply (proj1 (Forall_forall _ _) Hold) in Hg'. unfold next_id in Hentry. lia.
    + unfold guest_object. now rewrite Hid, <- Hname, <- Hemail, <- Hgname, <- Hgid, Hv, Hcreated.
Qed.

Lemma guest_round_trip_witness :
  exists (id : Z) entries,
    fst (post_guest calm ann_visit two_guests) =
      ok [("success"%string, JBool true); ("id"%string, JNum id);
          ("message"%string, JStr "Guest info saved successfully")] /\
    fst (get_guests calm (snd (post_guest calm ann_visit two_guests))) =
      ok [("success"%string, JBool true); ("guests"%string, JArr entries)] /\
    (exists entry, In entry entries /\ prop entry "id" = Some (JNum id)) /\
    (forall entry,
        In entry entries -> prop entry "id" = Some (JNum id) ->
        entry =
          JObj [("id"%string, JNum id);
                ("name"%string, JStr "Ann");
                ("email"%string, JStr "a@x.com");
                ("gallery_name"%string, JStr "Spring");
                ("gallery_id"%string, JStr "g1");
                ("visit_date"%string, JStr "2024-04-30");
                ("created_at"%string, JStr (current_timestamp calm))]).
Proof.
  apply (guest_round_trip calm calm ann_visit "Ann" "a@x.com" "Spring" "g1" "2024-04-30"
           two_guests);
    try reflexivity.
  apply reach_step, reach_step, reach_init.
Defined.

(** *** Any accepted photos value is read back *)



(** *** Statistics and the lists *)

Lemma get_stats_number e s :
  db_fails e 0 = false -> db_fails e 1 = false -> db_fails e 2 = false ->
  exists x,
    get_stats e s =
      (ok [("success"%string, JBool true);
           ("stats"%string,
            JObj [("totalGuests"%string, JNum (Z.of_nat (List.length (rows (guests s)))));
                  ("totalOrders"%string, JNum (Z.of_nat (List.length (rows (orders s)))));
                  ("totalPhotosOrdered"%string, JNum x)])],
       s).
Proof.
  intros H0 H1 H2. unfold get_stats. rewrite H0, H1, H2.
  destruct (sum_is_number (orders s)) as (x & ->). now exists x.
Qed.

Lemma get_stats_counts e s counts :
  db_fails e 0 = false -> db_fails e 1 = false -> db_fails e 2 = false ->
  map o_photo_count (rows (orders s)) = map SqlInt counts ->
  get_stats e s =
    (ok [("success"%string, JBool true);
         ("stats"%string,
          JObj [("totalGuests"%string, JNum (Z.of_nat (List.length (rows (guests s)))));
                ("totalOrders"%string, JNum (Z.of_nat (List.length (rows (orders s)))));
                ("totalPhotosOrdered"%string, JNum (total counts))])],
     s).
Proof.
  intros H0 H1 H2 Hcounts. unfold get_stats. rewrite H0, H1, H2.
  now rewrite (sum_of_counts _ counts Hcounts).
Qed.

(** X12.  The statistics agree with the lists: on a store the server
    has written, [totalGuests] is the number of entries of the guest
    list and [totalOrders] the number of entries of the order list. *)
Theorem stats_count_the_lists (e e1 e2 : env) (s : store) :
  reachable s ->
  db_fails e 0 = false -> db_fails e 1 = false -> db_fails e 2 = false ->
  db_fails e1 0 = false -> db_fails e2 0 = false ->
  exists guest_entries order_entries photos,
    fst (get_guests e1 s) =
      ok [("success"%string, JBool true); ("guests"%string, JArr guest_entries)] /\
    fst (get_orders e2 s) =
      ok [("success"%string, JBool true); ("orders"%string, JArr order_entries)] /\
    fst (get_stats e s) =
      ok [("success"%string, JBool true);
          ("stats"%string,
           JObj [("totalGuests"%string, JNum (Z.of_nat (List.length guest_entries)));
                 ("totalOrders"%string, JNum (Z.of_nat (List.length order_entries)));
                 ("totalPhotosOrdered"%string, JNum photos)])].
Proof.
  intros Hs H0 H1 H2 Hg Ho. pose proof (reachable_ok s Hs) as Hok.
  destruct (get_stats_number e s H0 H1 H2) as (x & Hstats).
  rewrite (get_guests_ok e1 s Hg), (get_orders_views e2 s Hok Ho), Hstats.
  eexists. eexists. exists x. split; [reflexivity|]. split; [reflexivity|].
  cbn [fst]. unfold select_guests, select_orders.
  now rewrite !length_map, !order_by_desc_length.
Qed.

Lemma stats_count_the_lists_witness :
  exists guest_entries order_entries photos,
    fst (get_guests calm two_galleries) =
      ok [("success"%string, JBool true); ("guests"%string, JArr guest_entries)] /\
    fst (get_orders calm two_galleries) =
      ok [("success"%string, JBool true); ("orders"%string, JArr order_entries)] /\
    fst (get_stats calm two_galleries) =
      ok [("success"%string, JBool true);
          ("stats"%string,
           JObj [("totalGuests"%string, JNum (Z.of_nat (List.length guest_entries)));
                 ("totalOrders"%string, JNum (Z.of_nat (List.length order_entries)));
                 ("totalPhotosOrdered"%string, JNum photos)])].
Proof.
  apply (stats_count_the_lists calm calm calm two_galleries); try reflexivity.
  apply reach_step, reach_step, reach_init.
Defined.

Lemma total_app l1 l2 : total (l1 ++ l2) = total l1 + total l2.
Proof.
  unfold total. induction l1 as [|n l1 IH]; cbn [Datatypes.app fold_right]; lia.
Qed.

(** X13.  On a store whose orders hold the integer photo counts
    [counts], a successful order with a list of [n] photos raises
    [totalOrders] by one and [totalPhotosOrdered], the sum of the
    counts, by [n], and leaves [totalGuests] as it was. *)
Theorem stats_follow_an_order (e e1 : env) (body : json) (photos : list json)
    (counts : list Z) (s : store) :
  guest_fields_present body = true ->
  prop body "photos" = Some (JArr photos) ->
  photo_counts (rows (orders s)) counts ->
  total counts + Z.of_nat (List.length photos) <= 2 ^ 53 ->
  db_fails e 0 = false ->
  db_fails e1 0 = false -> db_fails e1 1 = false -> db_fails e1 2 = false ->
  fst (get_stats e1 (snd (post_order e body s))) =
    ok [("success"%string, JBool true);
        ("stats"%string,
         JObj [("totalGuests"%string,
                JNum (Z.of_nat (List.length (rows (guests s)))));
               ("totalOrders"%string,
                JNum (Z.of_nat (List.length (rows (orders s))) + 1));
               ("totalPhotosOrdered"%string,
                JNum (total counts + Z.of_nat (List.length photos)))])].
Proof.
  intros Hfields Hphotos [Hcounts _] _ Hdb H0 H1 H2.
  assert (Hp : order_fields_present body = true).
  { unfold order_fields_present. now rewrite Hfields, Hphotos. }
  destruct (post_order_accepted e body s (JArr photos) Hp Hphotos Hdb) as (o & Ho & E);
    [discriminate|].
  destruct Ho as (_ & _ & _ & _ & _ & Hpc & _).
  cbn in Hpc. injection Hpc as Hpc.
  rewrite E. cbn [snd].
  rewrite (get_stats_counts e1 _ (counts ++ [Z.of_nat (List.length photos)]) H0 H1 H2).
  - cbn [fst guests orders rows insert_row].
    rewrite total_app, length_app. cbn [List.length total fold_right].
    repeat f_equal; lia.
  - cbn [orders rows insert_row]. rewrite !map_app, Hcounts. cbn [map].
    now rewrite <- Hpc.
Qed.

Lemma stats_follow_an_order_witness :
  fst (get_stats calm (snd (post_order calm
         (ann_order (JArr [JStr "a"; JStr "b"; JStr "c"])) two_galleries))) =
    ok [("success"%string, JBool true);
        ("stats"%string,
         JObj [("totalGuests"%string,
                JNum (Z.of_nat (List.length (rows (guests two_galleries)))));
               ("totalOrders"%string,
                JNum (Z.of_nat (List.length (rows (orders two_galleries))) + 1));
               ("totalPhotosOrdered"%string, JNum (total [2; 1] + 3))])].
Proof.
  apply (stats_follow_an_order calm calm
           (ann_order (JArr [JStr "a"; JStr "b"; JStr "c"]))
           [JStr "a"; JStr "b"; JStr "c"] [2; 1] two_galleries);
    try reflexivity.
  - split; [reflexivity|]. split; [repeat constructor; lia|].
    vm_compute. discriminate.
  - vm_compute. discriminate.
Defined.

(** X18.  After all orders are deleted the order list is empty and the
    statistics report no order and no photo, while the number of
    guests is what it was; after all guests are deleted the guest list
    is empty and the statistics report no guest, while the order
    figures are what they were: the number of orders and, when the
    orders hold the integer photo counts [counts], their sum. *)
Theorem delete_all_then_read (e e1 e2 : env) (s : store) (counts : list Z) :
  db_fails e 0 = false -> db_fails e1 0 = false ->
  db_fails e2 0 = false -> db_fails e2 1 = false -> db_fails e2 2 = false ->
  (fst (get_orders e1 (snd (delete_orders e s))) =
     ok [("success"%string, JBool true); ("orders"%string, JArr [])] /\
   fst (get_stats e2 (snd (delete_orders e s))) =
     ok [("success"%string, JBool true);
         ("stats"%string,
          JObj [("totalGuests"%string, JNum (Z.of_nat (List.length (rows (guests s)))));
                ("totalOrders"%string, JNum 0);
                ("totalPhotosOrdered"%string, JNum 0)])]) /\
  (fst (get_guests e1 (snd (delete_guests e s))) =
     ok [("success"%string, JBool true); ("guests"%string, JArr [])] /\
   (photo_counts (rows (orders s)) counts ->
    fst (get_stats e2 (snd (delete_guests e s))) =
      ok [("success"%string, JBool true);
          ("stats"%string,
           JObj [("totalGuests"%string, JNum 0);
                 ("totalOrders"%string, JNum (Z.of_nat (List.length (rows (orders s)))));
                 ("totalPhotosOrdered"%string, JNum (total counts))])])).
Proof.
  intros Hdb Hdb1 H0 H1 H2.
  unfold delete_orders, delete_guests. rewrite Hdb. cbn [delete_all snd].
  rewrite (get_guests_ok e1 _ Hdb1).
  unfold get_orders. rewrite Hdb1. repeat split.
  - now rewrite (get_stats_counts e2 _ [] H0 H1 H2).
  - intros [Hcounts _]. now rewrite (get_stats_counts e2 _ counts H0 H1 H2).
Qed.

Lemma delete_all_then_read_witness :
  (fst (get_orders calm (snd (delete_orders calm two_galleries))) =
     ok [("success"%string, JBool true); ("orders"%string, JArr [])] /\
   fst (get_stats calm (snd (delete_orders calm two_galleries))) =
     ok [("success"%string, JBool true);
         ("stats"%string,
          JObj [("totalGuests"%string,
                 JNum (Z.of_nat (List.length (rows (guests two_galleries)))));
                ("totalOrders"%string, JNum 0);
                ("totalPhotosOrdered"%string, JNum 0)])]) /\
  fst (get_stats calm (snd (delete_guests calm two_galleries))) =
    ok [("success"%string, JBool true);
        ("stats"%string,
         JObj [("totalGuests"%string, JNum 0);
               ("totalOrders"%string,
                JNum (Z.of_nat (List.length (rows (orders two_galleries)))));
               ("totalPhotosOrdered"%string, JNum (total [2; 1]))])].
Proof.
  destruct (delete_all_then_read calm calm calm two_galleries [2; 1]
              eq_refl eq_refl eq_refl eq_refl eq_refl) as [Horders [_ Hguests]].
  split; [exact Horders|]. apply Hguests.
  split; [reflexivity|]. split; [repeat constructor; lia|].
  vm_compute. discriminate.
Defined.

(** *** Export and list agree *)

(** X17.  An export and the list of the same table read the same rows
    in the same order: the k-th line after the header renders the row
    that the k-th entry of the list shows. *)
Theorem export_follows_the_list (e1 e2 : env) (s : store) :
  reachable s -> db_fails e1 0 = false -> db_fails e2 0 = false ->
  (exists listed,
     fst (get_guests e1 s) =
       ok [("success"%string, JBool true);
           ("guests"%string, JArr (map guest_object listed))] /\
     fst (export_guests e2 s) =
       Download "text/csv" "attachment; filename=guests.csv"
         (guests_header ++ lines_after (map guest_line listed))) /\
  (exists listed,
     fst (get_orders e1 s) =
       ok [("success"%string, JBool true);
           ("orders"%string, JArr (map order_view listed))] /\
     fst (export_orders e2 s) =
       Download "text/csv" "attachment; filename=orders.csv"
         (orders_header ++ lines_after (map order_line listed))).
Proof.
  intros Hs Hdb1 Hdb2. pose proof (reachable_ok s Hs) as Hok. split.
  - exists (select_guests (guests s)). rewrite (get_guests_ok e1 s Hdb1).
    unfold export_guests. rewrite Hdb2, join_lines_first. auto.
  - exists (select_orders (orders s)). rewrite (get_orders_views e1 s Hok Hdb1).
    unfold export_orders. rewrite Hdb2, join_lines_first. auto.
Qed.

Lemma export_follows_the_list_witness :
  exists listed,
    fst (get_orders calm two_galleries) =
      ok [("success"%string, JBool true);
          ("orders"%string, JArr (map order_view listed))] /\
    fst (export_orders calm two_galleries) =
      Download "text/csv" "attachment; filename=orders.csv"
        (orders_header ++ lines_after (map order_line listed)).
Proof.
  apply (export_follows_the_list calm calm two_galleries);
    [apply reach_step, reach_step, reach_init | reflexivity | reflexivity].
Defined.

(** *** Newest first *)

Lemma descending_head_max {row : Type} (key : row -> string) (h : row) (l : list row) (x : row) :
  descending key (h :: l) -> In x (h :: l) -> (key x <=? key h)%string = true.
Proof.
  intros Hs [<- | Hx].
  - destruct (String.leb_total (key h) (key h)); assumption.
  - apply StronglySorted_inv in Hs as [_ Hh].
    now apply (proj1 (Forall_forall _ _) Hh).
Qed.

Lemma ltb_not_leb (a b : string) :
  (a <? b)%string = true -> (b <=? a)%string = false.
Proof.
  unfold String.ltb, String.leb. rewrite (String.compare_antisym b a).
  destruct (String.compare a b); cbn; congruence.
Qed.

(** X20.  A guest created at a time later than the [created_at] of
    every stored guest is the first entry of the guest list. *)
Theorem newest_guest_is_listed_first (e e1 : env) (body : json) (s : store) :
  guest_fields_present body = true ->
  db_fails e 0 = false -> db_fails e1 0 = false ->
  Forall (fun g => (g_created_at g <? current_timestamp e)%string = true)
         (rows (guests s)) ->
  exists first others,
    fst (get_guests e1 (snd (post_guest e body s))) =
      ok [("success"%string, JBool true);
          ("guests"%string, JArr (first :: others))] /\
    prop first "id" = Some (JNum (seq (guests s) + 1)) /\
    prop first "created_at" = Some (JStr (current_timestamp e)).
Proof.
  intros Hp Hdb Hdb1 Hold.
  destruct (post_guest_accepted e body s Hp Hdb) as (g & Hg & E).
  destruct Hg as (Hid & _ & _ & _ & _ & _ & Hcreated).
  rewrite E. cbn [snd]. rewrite (get_guests_ok e1 _ Hdb1). cbn [fst].
  unfold select_guests. cbn [guests rows insert_row].
  pose proof (order_by_desc_sorted g_created_at (rows (guests s) ++ [g])) as Hsorted.
  assert (Hin : In g (order_by_desc g_created_at (rows (guests s) ++ [g]))).
  { apply order_by_desc_in, in_or_app. right. now left. }
  destruct (order_by_desc g_created_at (rows (guests s) ++ [g])) as [|h l] eqn:El;
    [destruct Hin|].
  assert (Hh : h = g).
  { assert (Hhin : In h (rows (guests s) ++ [g])).
    { apply (order_by_desc_in g_created_at). rewrite El. now left. }
    apply in_app_or in Hhin as [Hhin | [<- | []]]; [|reflexivity].
    apply (proj1 (Forall_forall _ _) Hold) in Hhin.
    pose proof (descending_head_max g_created_at h l g Hsorted Hin) as Hle.
    rewrite Hcreated in Hle. apply ltb_not_leb in Hhin. congruence. }
  subst h. exists (guest_object g), (map guest_object l).
  split; [reflexivity|]. unfold next_id in Hid. split.
  - rewrite guest_object_id. now rewrite Hid.
  - cbn. now rewrite Hcreated.
Qed.

Definition later : env :=
  mkEnv "2024-05-02T09:30:00.000Z" "2024-05-02 09:30:00" (fun _ => false).

Lemma newest_guest_is_listed_first_witness :
  exists first others,
    fst (get_guests calm (snd (post_guest later ann_guest two_guests))) =
      ok [("success"%string, JBool true);
          ("guests"%string, JArr (first :: others))] /\
    prop first "id" = Some (JNum (seq (guests two_guests) + 1)) /\
    prop first "created_at" = Some (JStr (current_timestamp later)).
Proof.
  apply (newest_guest_is_listed_first later calm ann_guest two_guests);
    try reflexivity.
  repeat constructor.
Defined.

(** *** Create, then delete *)

(** X16.  Deleting a guest by the id its creation returned restores the
    rows of the table exactly, but not the key sequence: the next guest
    gets a new id.  The same holds for orders. *)
Theorem create_then_delete_restores_rows (e e1 : env) (body : json) (id : string)
    (s : store) :
  reachable s -> db_fails e1 0 = false ->
  (int_of_text id = Some (seq (guests s) + 1) ->
   created_guest_id (PostGuest body, fst (post_guest e body s))
     = Some (seq (guests s) + 1) ->
   guests (snd (delete_guest e1 id (snd (post_guest e body s)))) =
     mkTable (rows (guests s)) (seq (guests s) + 1)) /\
  (int_of_text id = Some (seq (orders s) + 1) ->
   created_order_id (PostOrder body, fst (post_order e body s))
     = Some (seq (orders s) + 1) ->
   orders (snd (delete_order e1 id (snd (post_order e body s)))) =
     mkTable (rows (orders s)) (seq (orders s) + 1)).
Proof.
  intros Hs Hdb1. destruct (reachable_ok s Hs) as [Hg Ho]. split; intros Hid Hcreated.
  - destruct (post_guest_cases e body s)
      as [[_ E] | [(_ & _ & E) | (_ & _ & g & Hrow & E)]];
      rewrite E in Hcreated |- *; try discriminate Hcreated.
    destruct Hrow as (Hgid & _). unfold next_id in Hgid.
    unfold delete_guest. rewrite Hdb1.
    cbn [snd delete_where_id guests rows seq insert_row]. unfold next_id.
    rewrite filter_app. cbn [filter].
    rewrite (id_equals_text id _ _ Hid), Hgid, Z.eqb_refl. cbn [negb].
    rewrite filter_everything, app_nil_r; [reflexivity|].
    intros x Hx. apply (proj1 (Forall_forall _ _) Hg) in Hx.
    rewrite (id_equals_text id _ _ Hid). apply negb_true_iff, Z.eqb_neq. lia.
  - destruct (post_order_cases e body s) as [E | [E | (ph & o & _ & _ & Hrow & E)]];
      rewrite E in Hcreated |- *; try discriminate Hcreated.
    destruct Hrow as (Hoid & _). unfold next_id in Hoid.
    unfold delete_order. rewrite Hdb1.
    cbn [snd delete_where_id orders rows seq insert_row]. unfold next_id.
    rewrite filter_app. cbn [filter].
    rewrite (id_equals_text id _ _ Hid), Hoid, Z.eqb_refl. cbn [negb].
    rewrite filter_everything, app_nil_r; [reflexivity|].
    intros x Hx. apply (proj1 (Forall_forall _ _) Ho) in Hx as [Hx _].
    rewrite (id_equals_text id _ _ Hid). apply negb_true_iff, Z.eqb_neq. lia.
Qed.

Lemma create_then_delete_restores_rows_witness :
  guests (snd (delete_guest calm "3" (snd (post_guest calm ann_guest two_guests)))) =
    mkTable (rows (guests two_guests)) (seq (guests two_guests) + 1).
Proof.
  apply (create_then_delete_restores_rows calm calm ann_guest "3" two_guests);
    try reflexivity.
  apply reach_step, reach_step, reach_init.
Defined.
